(** * YoutubeDoro: the timing and totals core of [src/app/page.tsx]

    A shallow embedding of the helpers ([extractYouTubeVideoId],
    [readNumber], [writeNumber]), of the [Page] totals store, of the
    countdown cards ([LearningCard], [PlainRestPanel]) and of
    [YouTubeRestPanel], followed by the properties the specification
    states about them.

    Conventions.
    - A JavaScript string is a [string]; a character stands for the
      UTF-16 code unit of the same number (code units below 256).
    - Seconds kept in React state are integers ([Z]): every [setState]
      of the cards stores a [Math.floor] or a product of integers.
      Numbers that arrive from outside (the minutes field, the argument
      of [addLearn]/[addRest], the player's [getDuration] and
      [getCurrentTime]) are finite and modelled as rationals ([Q]).
    - A handler runs on the committed state and returns the next state
      together with the list of calls it makes to its collaborators. *)

From Stdlib Require Import ZArith QArith Qround Lia Ascii String List Bool.
From Stdlib Require Import DecimalString DecimalZ Lqa.
From stdpp Require Import gmap strings.
Import ListNotations.

Local Open Scope string_scope.
Local Open Scope Z_scope.

(** ** JavaScript string helpers used by the resolver *)

Module JsString.

(** [WhiteSpace] and [LineTerminator] code units below 256:
    TAB, LF, VT, FF, CR, SP and NBSP. *)
Definition is_white (c : ascii) : bool :=
  let n := nat_of_ascii c in
  ((9 <=? n)%nat && (n <=? 13)%nat) || (n =? 32)%nat || (n =? 160)%nat.

Fixpoint trimStart (s : string) : string :=
  match s with
  | String c s' => if is_white c then trimStart s' else s
  | EmptyString => EmptyString
  end.

Fixpoint trimEnd (s : string) : string :=
  match s with
  | String c s' =>
      match trimEnd s' with
      | EmptyString => if is_white c then EmptyString else String c EmptyString
      | r => String c r
      end
  | EmptyString => EmptyString
  end.

(** [String.prototype.trim] *)
Definition trim (s : string) : string := trimEnd (trimStart s).

(** [hay.includes(needle)] *)
Fixpoint includes (needle hay : string) : bool :=
  String.prefix needle hay ||
  match hay with
  | String _ hay' => includes needle hay'
  | EmptyString => false
  end.

(** [s.split(sep)] for a one-character separator: never empty. *)
Fixpoint split (sep : ascii) (s : string) : list string :=
  match s with
  | EmptyString => [EmptyString]
  | String c s' =>
      if Ascii.eqb c sep then EmptyString :: split sep s'
      else match split sep s' with
           | w :: ws => String c w :: ws
           | [] => [String c EmptyString]
           end
  end.

(** truthiness of a string: the empty string is falsy *)
Definition truthy (s : string) : bool := negb (String.eqb s "").

(** [arr.indexOf(x)]; [None] stands for [-1]. *)
Fixpoint indexOf (x : string) (arr : list string) : option nat :=
  match arr with
  | [] => None
  | y :: arr' => if String.eqb y x then Some O else option_map S (indexOf x arr')
  end.

End JsString.

(** ** The video-id resolver *)

Module Resolver.
Import JsString.

(** The character class [[a-zA-Z0-9_-]]. *)
Definition id_char (c : ascii) : bool :=
  let n := nat_of_ascii c in
  ((97 <=? n)%nat && (n <=? 122)%nat) ||
  ((65 <=? n)%nat && (n <=? 90)%nat) ||
  ((48 <=? n)%nat && (n <=? 57)%nat) ||
  (n =? 95)%nat || (n =? 45)%nat.

(** [/^[a-zA-Z0-9_-]{11}$/.test(s)] *)
Definition is_video_id (s : string) : bool :=
  (String.length s =? 11)%nat && forallb id_char (list_ascii_of_string s).

(** What the code reads from a [URL] object. [searchParams] keeps the
    query pairs in order; [get] answers the first pair of that name. *)
Record URL := mkURL {
  hostname : string;
  pathname : string;
  searchParams : list (string * string)
}.

Fixpoint searchParams_get (name : string) (ps : list (string * string)) : option string :=
  match ps with
  | [] => None
  | (k, v) :: ps' => if String.eqb k name then Some v else searchParams_get name ps'
  end.

(** [url.pathname.split("/").filter(Boolean)] *)
Definition path_parts (url : URL) : list string :=
  List.filter truthy (split "/" (pathname url)).

(** [x && re.test(x)]: the value when it is defined, non-empty and of
    the id shape. *)
Definition valid_id (x : option string) : option string :=
  match x with
  | Some s => if truthy s && is_video_id s then Some s else None
  | None => None
  end.

(** [idx >= 0 && parts[idx + 1] && re.test(parts[idx + 1])] for
    [idx = parts.indexOf(marker)]; answers [parts[idx + 1]]. *)
Definition segment_after (marker : string) (parts : list string) : option string :=
  match indexOf marker parts with
  | Some idx => valid_id (nth_error parts (S idx))
  | None => None
  end.

Section WithURL.

(** The platform's [new URL(raw)]: [None] when the constructor throws. *)
Variable new_URL : string -> option URL.

Definition extractYouTubeVideoId (input : string) : option string :=
  let raw := trim input in
  if is_video_id raw then Some raw
  else
    match new_URL raw with
    | None => None
    | Some url =>
        if includes "youtu.be" (hostname url) then
          valid_id (List.head (path_parts url))
        else
          match valid_id (searchParams_get "v" (searchParams url)) with
          | Some v => Some v
          | None =>
              let parts := path_parts url in
              match segment_after "embed" parts with
              | Some seg => Some seg
              | None =>
                  match segment_after "shorts" parts with
                  | Some seg => Some seg
                  | None => None
                  end
              end
          end
    end.

End WithURL.

(** *** An executable reader for plain http(s) URLs

    [plain_URL] answers what [new URL] answers on inputs of the form
    [http(s)://host/path?query#fragment] whose host is made of
    dot-separated lower-case words and whose path, query and fragment
    use only id characters, [/], [=] and [&] (no escapes, no dot
    segments, no port).  On every other input it answers [None]; it
    is used for the closed examples only, the general statements
    quantify over the reader. *)

Fixpoint break_at (p : ascii -> bool) (s : string) : string * string :=
  match s with
  | EmptyString => (EmptyString, EmptyString)
  | String c s' =>
      if p c then (EmptyString, s)
      else let (a, b) := break_at p s' in (String c a, b)
  end.

Fixpoint strip_prefix (p s : string) : option string :=
  match p, s with
  | EmptyString, _ => Some s
  | String a p', String b s' => if Ascii.eqb a b then strip_prefix p' s' else None
  | String _ _, EmptyString => None
  end.

Definition all_chars (p : ascii -> bool) (s : string) : bool :=
  forallb p (list_ascii_of_string s).

Definition is_char (x : ascii) (c : ascii) : bool := Ascii.eqb c x.

Definition lower (c : ascii) : bool :=
  let n := nat_of_ascii c in (97 <=? n)%nat && (n <=? 122)%nat.

Definition plain_host (h : string) : bool :=
  forallb (all_chars lower) (split "." h) &&
  forallb truthy (split "." h).

Definition parse_pair (kv : string) : string * string :=
  let (k, r) := break_at (is_char "=") kv in
  match r with
  | String _ v => (k, v)
  | EmptyString => (k, EmptyString)
  end.

Definition parse_query (q : string) : list (string * string) :=
  List.map parse_pair (List.filter truthy (split "&" q)).

Definition after_scheme (raw : string) : option string :=
  match strip_prefix "https://" raw with
  | Some r => Some r
  | None => strip_prefix "http://" raw
  end.

Definition plain_URL (raw : string) : option URL :=
  match after_scheme raw with
  | None => None
  | Some r =>
      let (host, r1) := break_at (fun c => is_char "/" c || is_char "?" c || is_char "#" c) r in
      let (path, r2) := break_at (fun c => is_char "?" c || is_char "#" c) r1 in
      let (query, frag) :=
        match r2 with
        | String "?" q => break_at (is_char "#") q
        | _ => (EmptyString, r2)
        end in
      if plain_host host
         && all_chars (fun c => id_char c || is_char "/" c) path
         && all_chars (fun c => id_char c || is_char "=" c || is_char "&" c) query
         && all_chars id_char (match frag with String _ f => f | EmptyString => EmptyString end)
      then Some {| hostname := host;
                   pathname := if truthy path then path else "/";
                   searchParams := parse_query query |}
      else None
  end.

Definition resolve : string -> option string := extractYouTubeVideoId plain_URL.

End Resolver.

(** ** Calls a component makes to its collaborators, in program order *)

Inductive call :=
| onAddLearn (seconds : Z)   (* the [onAddLearn] prop, [Page.addLearn] *)
| onAddRest (seconds : Z)    (* the [onAddRest] prop, [Page.addRest] *)
| primeAudio
| beepTriple
| newNotification            (* [new Notification(...)] *)
| stopVideo.                 (* [p.stopVideo()] *)

(** ** The daily totals store: helpers and [Page] *)

Module Page.
Import JsString.

(** [window.localStorage]: [None] when every access throws (storage
    disabled), otherwise the stored items. *)
Abbreviation Storage := (option (gmap string string)).

(** [String(n)] for an integer (decimal digits; JavaScript prints
    integers this way below 10^21). *)
Definition String_ (n : Z) : string := NilEmpty.string_of_int (Z.to_int n).

(** [Number(v)] on integer literals ([-]digits); [None] stands for a
    value that is not finite.  The store only ever writes [String_]
    of a non-negative integer; other texts are read as not-a-number.
    [Number] itself also reads decimal fractions, exponents and texts
    with surrounding blanks: such texts are outside this model, and a
    property that depends on what a stored text reads as is stated for
    texts the store writes ([PageSpec.store_text]). *)
Definition Number_ (v : string) : option Z :=
  option_map Z.of_int (NilEmpty.int_of_string v).

(** [a || b] on numbers *)
Definition js_or (a b : Z) : Z := if a =? 0 then b else a.

Definition readNumber (ls : Storage) (key : string) : Z :=
  match ls with
  | None => 0                                   (* catch *)
  | Some items =>
      match items !! key with
      | Some v =>
          if truthy v then
            match Number_ v with
            | Some n => n
            | None => 0                         (* not finite *)
            end
          else 0
      | None => 0                               (* getItem answers null *)
      end
  end.

Definition writeNumber (ls : Storage) (key : string) (value : Z) : Storage :=
  match ls with
  | None => None                                (* catch: ignore *)
  | Some items => Some (<[key := String_ (Z.max 0 value)]> items)
  end.

(** [String(n).padStart(2, "0")] *)
Definition pad2 (n : Z) : string :=
  let s := String_ n in
  if (String.length s <? 2)%nat then "0" ++ s else s.

(** [formatMMSS]: the clock text shown for a number of seconds. *)
Definition formatMMSS (totalSeconds : Q) : string :=
  let s := Z.max 0 (Qfloor totalSeconds) in
  let mm := s / 60 in
  let ss := s mod 60 in
  pad2 mm ++ ":" ++ pad2 ss.

(** What [dayKey] reads from a [Date]. *)
Record Date := { getFullYear : Z; getMonth : Z; getDate : Z }.

Definition dayKey (d : Date) : string :=
  String_ (getFullYear d) ++ "-" ++ pad2 (getMonth d + 1) ++ "-" ++ pad2 (getDate d).

Record Keys := { learn : string; rest : string; legacyBreak : string }.

Definition key_of (d suffix : string) : string := "ytdoro:" ++ d ++ ":" ++ suffix.

(** The [useMemo] on [today]. *)
Definition keys (today : string) : Keys :=
  if truthy today then
    {| learn := key_of today "learnSec";
       rest := key_of today "restSec";
       legacyBreak := key_of today "breakSec" |}
  else {| learn := ""; rest := ""; legacyBreak := "" |}.

Record State := {
  today : string;
  totalLearnSec : Z;
  totalRestSec : Z
}.

Definition initial : State :=
  {| today := ""; totalLearnSec := 0; totalRestSec := 0 |}.

(** The deferred callback of the mount effect; [d] is [dayKey()]. *)
Definition mount (d : string) (s : State) (ls : Storage) : State * Storage :=
  let learnKey := key_of d "learnSec" in
  let restKey := key_of d "restSec" in
  let legacyKey := key_of d "breakSec" in
  let learn := readNumber ls learnKey in
  let legacy := readNumber ls legacyKey in
  let rest := js_or (readNumber ls restKey) legacy in
  ({| today := d; totalLearnSec := learn; totalRestSec := rest |},
   if (rest =? 0) && (0 <? legacy) then writeNumber ls restKey legacy else ls).

(** [addLearn] as created by a render whose memo is [k]. *)
Definition addLearn (k : Keys) (seconds : Q) (s : State) (ls : Storage) : State * Storage :=
  let delta := Z.max 0 (Qfloor seconds) in
  let next := totalLearnSec s + delta in
  ({| today := today s; totalLearnSec := next; totalRestSec := totalRestSec s |},
   if truthy (learn k) then writeNumber ls (learn k) next else ls).

Definition addRest (k : Keys) (seconds : Q) (s : State) (ls : Storage) : State * Storage :=
  let delta := Z.max 0 (Qfloor seconds) in
  let next := totalRestSec s + delta in
  ({| today := today s; totalLearnSec := totalLearnSec s; totalRestSec := next |},
   if truthy (rest k) then writeNumber ls (rest k) next else ls).

(** The updater [addLearn] hands to [setTotalLearnSec]: called with
    the previous total, it writes and returns [next].  [addLearn]
    itself has no [return]. *)
Definition addLearn_updater (k : Keys) (delta : Z) (prev : Z) (ls : Storage) : Z * Storage :=
  let next := prev + delta in
  (next, if truthy (learn k) then writeNumber ls (learn k) next else ls).

Definition addRest_updater (k : Keys) (delta : Z) (prev : Z) (ls : Storage) : Z * Storage :=
  let next := prev + delta in
  (next, if truthy (rest k) then writeNumber ls (rest k) next else ls).

Definition resetToday (k : Keys) (s : State) (ls : Storage) : State * Storage :=
  let ls1 := if truthy (learn k) then writeNumber ls (learn k) 0 else ls in
  let ls2 := if truthy (rest k) then writeNumber ls1 (rest k) 0 else ls1 in
  let ls3 := if truthy (legacyBreak k) then writeNumber ls2 (legacyBreak k) 0 else ls2 in
  ({| today := today s; totalLearnSec := 0; totalRestSec := 0 |}, ls3).

(** The store's part in a call of a card. *)
Definition perform (k : Keys) (c : call) (p : State * Storage) : State * Storage :=
  match c with
  | onAddLearn n => addLearn k (inject_Z n) (fst p) (snd p)
  | onAddRest n => addRest k (inject_Z n) (fst p) (snd p)
  | _ => p
  end.

Definition perform_all (k : Keys) (cs : list call) (p : State * Storage) : State * Storage :=
  fold_left (fun p c => perform k c p) cs p.

(** What the cards can ask of a mounted page; [k] is the memo of the
    render that created the handlers. *)
Inductive event :=
| AddLearn (seconds : Q)
| AddRest (seconds : Q)
| ResetToday.

Definition step (k : Keys) (e : event) (p : State * Storage) : State * Storage :=
  match e with
  | AddLearn seconds => addLearn k seconds (fst p) (snd p)
  | AddRest seconds => addRest k seconds (fst p) (snd p)
  | ResetToday => resetToday k (fst p) (snd p)
  end.

Definition run (k : Keys) (es : list event) (p : State * Storage) : State * Storage :=
  fold_left (fun p e => step k e p) es p.

End Page.

(** ** The countdown engine: [LearningCard] and [PlainRestPanel]

    The two components run the same code.  They differ in the total they
    credit, in the default minutes, in [startedAt] and the system
    notification (learning only) and in [reset] (plain rest only). *)

Module Countdown.

Inductive card := LearningCard | PlainRestPanel.

Inductive Status := Idle | Running | Paused | Done.

(** What the [setInterval] callback closes over. *)
Record Interval := { startTs : Z; t : Z }.

Record State := {
  minutes : Q;
  status : Status;
  startedAt : option Z;
  targetSec : Z;
  elapsedSec : Z;
  remainingSec : Z;
  timerRef : option Interval
}.

Definition default_minutes (c : card) : Z :=
  match c with LearningCard => 25 | PlainRestPanel => 5 end.

Definition initial (c : card) : State :=
  {| minutes := inject_Z (default_minutes c);
     status := Idle;
     startedAt := None;
     targetSec := default_minutes c * 60;
     elapsedSec := 0;
     remainingSec := 0;
     timerRef := None |}.

Definition onAdd (c : card) (seconds : Z) : call :=
  match c with
  | LearningCard => onAddLearn seconds
  | PlainRestPanel => onAddRest seconds
  end.

Definition setMinutes (m : Q) (s : State) : State :=
  {| minutes := m; status := status s; startedAt := startedAt s;
     targetSec := targetSec s; elapsedSec := elapsedSec s;
     remainingSec := remainingSec s; timerRef := timerRef s |}.

(** [clear]: [clearInterval] and forget the handle. *)
Definition clear (s : State) : State :=
  {| minutes := minutes s; status := status s; startedAt := startedAt s;
     targetSec := targetSec s; elapsedSec := elapsedSec s;
     remainingSec := remainingSec s; timerRef := None |}.

(** [start]; [now] is the clock read by [new Date()] and [Date.now()]. *)
Definition start (c : card) (now : Z) (s : State) : State * list call :=
  let m := Z.max 1 (Qfloor (minutes s)) in
  let t := m * 60 in
  ({| minutes := minutes s;
      status := Running;
      startedAt := match c with
                   | LearningCard => Some now
                   | PlainRestPanel => startedAt s
                   end;
      targetSec := t;
      elapsedSec := 0;
      remainingSec := t;
      timerRef := Some {| startTs := now; t := t |} |},
   [primeAudio]).

(** The [new Notification] of the learning card; [granted] says whether
    [Notification] exists with permission granted. *)
Definition notify (c : card) (granted : bool) : list call :=
  match c with
  | LearningCard => if granted then [newNotification] else []
  | PlainRestPanel => []
  end.

(** One run of the interval callback at clock [now].  A cleared
    interval runs no callback. *)
Definition tick (c : card) (granted : bool) (now : Z) (s : State) : State * list call :=
  match timerRef s with
  | None => (s, [])
  | Some iv =>
      let el := (now - startTs iv) / 1000 in
      let rem := Z.max 0 (t iv - el) in
      if rem <=? 0 then
        ({| minutes := minutes s; status := Done; startedAt := startedAt s;
            targetSec := targetSec s; elapsedSec := el; remainingSec := rem;
            timerRef := None |},
         onAdd c (t iv) :: beepTriple :: notify c granted)
      else
        ({| minutes := minutes s; status := status s; startedAt := startedAt s;
            targetSec := targetSec s; elapsedSec := el; remainingSec := rem;
            timerRef := timerRef s |},
         [])
  end.

Definition stop (c : card) (s : State) : State * list call :=
  match status s with
  | Running =>
      ({| minutes := minutes s; status := Paused; startedAt := startedAt s;
          targetSec := targetSec s; elapsedSec := elapsedSec s;
          remainingSec := remainingSec s; timerRef := None |},
       [onAdd c (elapsedSec s)])
  | _ => (s, [])
  end.

(** [reset] of [PlainRestPanel]. *)
Definition reset (s : State) : State :=
  {| minutes := minutes s; status := Idle; startedAt := startedAt s;
     targetSec := targetSec s; elapsedSec := 0; remainingSec := 0;
     timerRef := None |}.

(** What can happen to a mounted card. *)
Inductive event :=
| SetMinutes (m : Q)
| Start (now : Z)
| Tick (now : Z)
| Stop
| ResetPanel.

Definition step (c : card) (granted : bool) (e : event) (s : State) : State * list call :=
  match e with
  | SetMinutes m => (setMinutes m s, [])
  | Start now => start c now s
  | Tick now => tick c granted now s
  | Stop => stop c s
  | ResetPanel => match c with
             | PlainRestPanel => (reset s, [])
             | LearningCard => (s, [])
             end
  end.

(** Runs the events in order and collects the calls. *)
Fixpoint run (c : card) (granted : bool) (es : list event) (s : State) : State * list call :=
  match es with
  | [] => (s, [])
  | e :: es' =>
      let (s1, cs1) := step c granted e s in
      let (s2, cs2) := run c granted es' s1 in
      (s2, (cs1 ++ cs2)%list)
  end.

(** The interval fires every 250 ms: the clock readings of the [n]
    firings that follow [from]. *)
Fixpoint firing_times (from : Z) (n : nat) : list Z :=
  match n with
  | O => []
  | S n' => (from + 250) :: firing_times (from + 250) n'
  end.

End Countdown.

(** ** The player-driven engine: [YouTubeRestPanel] *)

Module YouTubeRestPanel.

Inductive Status := Idle | Playing | Paused | Ended | Error.

(** What the player answers when asked: [getDuration()] and
    [getCurrentTime()].  A missing method or a not-a-number answer
    behaves as 0 in every use below. *)
Record Reading := { getDuration : Q; getCurrentTime : Q }.

Record State := {
  input : string;
  status : Status;
  videoId : option string;
  durationSec : Z;
  remainingSec : Z;
  errorMsg : string;
  playerRef : bool;       (* [playerRef.current] is a player *)
  tickRef : bool;         (* [tickRef.current] is a live interval *)
  countedRef : bool
}.

Definition initial : State :=
  {| input := ""; status := Idle; videoId := None; durationSec := 0;
     remainingSec := 0; errorMsg := ""; playerRef := false;
     tickRef := false; countedRef := false |}.

Definition invalid_message : string := "URL/ID YouTube tidak valid.".
Definition playback_message : string :=
  "Video gagal diputar (embed dibatasi / region / jaringan).".

Definition setInput (v : string) (s : State) : State :=
  {| input := v; status := status s; videoId := videoId s;
     durationSec := durationSec s; remainingSec := remainingSec s;
     errorMsg := errorMsg s; playerRef := playerRef s;
     tickRef := tickRef s; countedRef := countedRef s |}.

Definition setStatus (st : Status) (s : State) : State :=
  {| input := input s; status := st; videoId := videoId s;
     durationSec := durationSec s; remainingSec := remainingSec s;
     errorMsg := errorMsg s; playerRef := playerRef s;
     tickRef := tickRef s; countedRef := countedRef s |}.

Definition setErrorMsg (m : string) (s : State) : State :=
  {| input := input s; status := status s; videoId := videoId s;
     durationSec := durationSec s; remainingSec := remainingSec s;
     errorMsg := m; playerRef := playerRef s;
     tickRef := tickRef s; countedRef := countedRef s |}.

Definition setRemainingSec (n : Z) (s : State) : State :=
  {| input := input s; status := status s; videoId := videoId s;
     durationSec := durationSec s; remainingSec := n;
     errorMsg := errorMsg s; playerRef := playerRef s;
     tickRef := tickRef s; countedRef := countedRef s |}.

Definition clearTick (s : State) : State :=
  {| input := input s; status := status s; videoId := videoId s;
     durationSec := durationSec s; remainingSec := remainingSec s;
     errorMsg := errorMsg s; playerRef := playerRef s;
     tickRef := false; countedRef := countedRef s |}.

(** [clearTick(); tickRef.current = setInterval(tickOnce, 250)] *)
Definition startTick (s : State) : State :=
  {| input := input s; status := status s; videoId := videoId s;
     durationSec := durationSec s; remainingSec := remainingSec s;
     errorMsg := errorMsg s; playerRef := playerRef s;
     tickRef := true; countedRef := countedRef s |}.

(** [d > 0] *)
Definition positive (d : Q) : bool := negb (Qle_bool d 0).

Definition tickOnce (r : Reading) (s : State) : State :=
  if playerRef s then
    let d := getDuration r in
    let t := getCurrentTime r in
    if positive d then
      {| input := input s; status := status s; videoId := videoId s;
         durationSec := Qfloor d;
         remainingSec := Z.max 0 (Qfloor (d - t));
         errorMsg := errorMsg s; playerRef := playerRef s;
         tickRef := tickRef s; countedRef := countedRef s |}
    else s
  else s.

Section WithURL.

Variable new_URL : string -> option Resolver.URL.

Definition startRestYoutube (s : State) : State :=
  let s1 := clearTick (setErrorMsg "" s) in
  match Resolver.extractYouTubeVideoId new_URL (input s) with
  | None => setErrorMsg invalid_message (setStatus Error s1)
  | Some id =>
      {| input := input s1; status := Idle; videoId := Some id;
         durationSec := 0; remainingSec := 0;
         errorMsg := errorMsg s1; playerRef := playerRef s1;
         tickRef := tickRef s1; countedRef := false |}
  end.

(** [openInYouTube]: the address handed to [window.open], [None] when
    the handler returns without opening anything. *)
Definition openInYouTube (s : State) : option string :=
  let id :=
    match Resolver.extractYouTubeVideoId new_URL (input s) with
    | Some id => if JsString.truthy id then Some id else videoId s
    | None => videoId s
    end in
  match id with
  | Some id =>
      if JsString.truthy id then Some ("https://www.youtube.com/watch?v=" ++ id)%string
      else None
  | None => None
  end.

End WithURL.

Definition stopRestYoutube (s : State) : State * list call :=
  if playerRef s then
    let credit :=
      if countedRef s then []
      else
        let used := Z.max 0 (durationSec s - remainingSec s) in
        if 0 <? used then [onAddRest used] else [] in
    ({| input := input s; status := Idle; videoId := None;
        durationSec := 0; remainingSec := 0;
        errorMsg := errorMsg s; playerRef := playerRef s;
        tickRef := false; countedRef := true |},
     (credit ++ [stopVideo])%list)
  else (s, []).

(** [durationSec || Math.floor(p?.getDuration?.() ?? 0)] *)
Definition ended_duration (r : Reading) (s : State) : Z :=
  Page.js_or (durationSec s) (if playerRef s then Qfloor (getDuration r) else 0).

Definition handleEndedCount (r : Reading) (s : State) : State * list call :=
  if countedRef s then (s, [])
  else
    let d := ended_duration r s in
    ({| input := input s; status := status s; videoId := videoId s;
        durationSec := durationSec s; remainingSec := remainingSec s;
        errorMsg := errorMsg s; playerRef := playerRef s;
        tickRef := tickRef s; countedRef := true |},
     if 0 <? d then [onAddRest d] else []).

(** The props handed to the embedded player. *)
Definition onReady (r : Reading) (s : State) : State :=
  tickOnce r (setStatus Idle
    {| input := input s; status := status s; videoId := videoId s;
       durationSec := durationSec s; remainingSec := remainingSec s;
       errorMsg := errorMsg s; playerRef := true;
       tickRef := tickRef s; countedRef := countedRef s |}).

Definition onPlay (r : Reading) (s : State) : State :=
  startTick (tickOnce r (setStatus Playing s)).

Definition onPause (r : Reading) (s : State) : State :=
  tickOnce r (clearTick (setStatus Paused s)).

Definition onEnd (r : Reading) (s : State) : State * list call :=
  handleEndedCount r (setRemainingSec 0 (clearTick (setStatus Ended s))).

Definition onError (s : State) : State :=
  setErrorMsg playback_message (clearTick (setStatus Error s)).

Definition onStateChange (data : Z) (r : Reading) (s : State) : State * list call :=
  if data =? 1 then (startTick (setStatus Playing s), [])
  else if data =? 2 then (clearTick (setStatus Paused s), [])
  else if data =? 0 then
    handleEndedCount r (setRemainingSec 0 (clearTick (setStatus Ended s)))
  else (s, []).

(** What can happen to a mounted panel; a signal of the player comes
    with what the player would answer at that moment. *)
Inductive event :=
| SetInput (v : string)
| StartRest
| StopRest
| Poll (r : Reading)            (* the 250 ms interval fires *)
| Ready (r : Reading)
| Play (r : Reading)
| Pause (r : Reading)
| End_ (r : Reading)
| PlayerError
| StateChange (data : Z) (r : Reading).

Definition step (new_URL : string -> option Resolver.URL)
    (e : event) (s : State) : State * list call :=
  match e with
  | SetInput v => (setInput v s, [])
  | StartRest => (startRestYoutube new_URL s, [])
  | StopRest => stopRestYoutube s
  | Poll r => (if tickRef s then tickOnce r s else s, [])
  | Ready r => (onReady r s, [])
  | Play r => (onPlay r s, [])
  | Pause r => (onPause r s, [])
  | End_ r => onEnd r s
  | PlayerError => (onError s, [])
  | StateChange data r => onStateChange data r s
  end.

Fixpoint run (new_URL : string -> option Resolver.URL)
    (es : list event) (s : State) : State * list call :=
  match es with
  | [] => (s, [])
  | e :: es' =>
      let (s1, cs1) := step new_URL e s in
      let (s2, cs2) := run new_URL es' s1 in
      (s2, (cs1 ++ cs2)%list)
  end.

End YouTubeRestPanel.

(** * Vocabulary of the properties *)

Module ResolverSpec.
Import JsString Resolver.

(** [marker] sits at index [i] of [parts] and nowhere before. *)
Definition first_at (marker : string) (parts : list string) (i : nat) : Prop :=
  nth_error parts i = Some marker /\
  forall j, (j < i)%nat -> nth_error parts j <> Some marker.

(** The first [marker] of [parts] is immediately followed by the
    id-shaped segment [id]. *)
Definition follows (marker : string) (parts : list string) (id : string) : Prop :=
  exists i, first_at marker parts i /\
            nth_error parts (S i) = Some id /\ is_video_id id = true.

Section Shapes.

Variable new_URL : string -> option URL.

(** The four reference shapes of the specification, read on the
    trimmed input [raw]: a bare id, a short-link URL, a watch URL
    with a [v] parameter, an [embed] or [shorts] path. *)
Inductive shape (raw id : string) : Prop :=
| bare_id :
    raw = id -> shape raw id
| short_link url :
    new_URL raw = Some url ->
    includes "youtu.be" (hostname url) = true ->
    List.head (path_parts url) = Some id ->
    shape raw id
| watch_query url :
    new_URL raw = Some url ->
    searchParams_get "v" (searchParams url) = Some id ->
    shape raw id
| marker_path url marker i :
    new_URL raw = Some url ->
    marker = "embed" \/ marker = "shorts" ->
    nth_error (path_parts url) i = Some marker ->
    nth_error (path_parts url) (S i) = Some id ->
    shape raw id.

(** [raw] refers to the video [id] in one of the four shapes. *)
Definition recognized (raw id : string) : Prop :=
  is_video_id id = true /\ shape raw id.

(** No [v] parameter of the id shape. *)
Definition no_valid_v (url : URL) : Prop :=
  forall v, searchParams_get "v" (searchParams url) = Some v -> is_video_id v = false.

(** The rules of the resolver, first match wins. *)
Inductive resolves (raw id : string) : Prop :=
| by_bare_id :
    is_video_id raw = true -> id = raw -> resolves raw id
| by_short_link url :
    is_video_id raw = false -> new_URL raw = Some url ->
    includes "youtu.be" (hostname url) = true ->
    List.head (path_parts url) = Some id -> is_video_id id = true ->
    resolves raw id
| by_watch_query url :
    is_video_id raw = false -> new_URL raw = Some url ->
    includes "youtu.be" (hostname url) = false ->
    searchParams_get "v" (searchParams url) = Some id -> is_video_id id = true ->
    resolves raw id
| by_embed url :
    is_video_id raw = false -> new_URL raw = Some url ->
    includes "youtu.be" (hostname url) = false ->
    no_valid_v url ->
    follows "embed" (path_parts url) id ->
    resolves raw id
| by_shorts url :
    is_video_id raw = false -> new_URL raw = Some url ->
    includes "youtu.be" (hostname url) = false ->
    no_valid_v url ->
    (forall id', ~ follows "embed" (path_parts url) id') ->
    follows "shorts" (path_parts url) id ->
    resolves raw id.

End Shapes.

End ResolverSpec.

Module PageSpec.
Import Page.

(** The seconds a list of calls credits to each total. *)
Fixpoint learn_credit (cs : list call) : Z :=
  match cs with
  | [] => 0
  | onAddLearn n :: cs' => Z.max 0 n + learn_credit cs'
  | _ :: cs' => learn_credit cs'
  end.

Fixpoint rest_credit (cs : list call) : Z :=
  match cs with
  | [] => 0
  | onAddRest n :: cs' => Z.max 0 n + rest_credit cs'
  | _ :: cs' => rest_credit cs'
  end.

Definition sample_date : Date := {| getFullYear := 2026; getMonth := 10; getDate := 2 |}.

Definition sample_day : string := dayKey sample_date.


(** Storage of a user who only has the legacy Break counter, at 120. *)
Definition legacy_only : Storage := Some {[ key_of sample_day "breakSec" := "120" ]}.

(** Storage holding 100 learning seconds for the day. *)
Definition learned_100 : Storage := Some {[ key_of sample_day "learnSec" := "100" ]}.

(** Reads a clock text back: minutes and seconds around the colon, as
    seconds. *)
Definition parseMMSS (text : string) : option Z :=
  match JsString.split ":" text with
  | [mm; ss] =>
      match Number_ mm, Number_ ss with
      | Some m, Some s => Some (m * 60 + s)
      | _, _ => None
      end
  | _ => None
  end.

(** Reads a day key back into the date fields it was printed from. *)
Definition parseDayKey (key : string) : option Date :=
  match JsString.split "-" key with
  | [y; m; d] =>
      match Number_ y, Number_ m, Number_ d with
      | Some y, Some m, Some d =>
          Some {| getFullYear := y; getMonth := m - 1; getDate := d |}
      | _, _, _ => None
      end
  | _ => None
  end.

(** The fields of a [Date] of the common era: months count from 0. *)
Definition calendar_date (d : Date) : bool :=
  (0 <=? getFullYear d) && (0 <=? getMonth d) && (getMonth d <=? 11)
  && (1 <=? getDate d) && (getDate d <=? 31).

(** The decimal digits. *)
Definition digit (c : ascii) : bool :=
  let n := nat_of_ascii c in (48 <=? n)%nat && (n <=? 57)%nat.

(** The three counters of a day hold non-negative values in [ls]. *)
Definition counters_nonneg (d : string) (ls : Storage) : bool :=
  (0 <=? readNumber ls (key_of d "learnSec"))
  && (0 <=? readNumber ls (key_of d "restSec"))
  && (0 <=? readNumber ls (key_of d "breakSec")).

(** Storage is available, holds non-negative counters for the day [d],
    and a first read of the day would show exactly the totals in memory. *)
Definition coherent (d : string) (p : State * Storage) : Prop :=
  snd p <> None /\
  totalLearnSec (fst p) = readNumber (snd p) (key_of d "learnSec") /\
  totalRestSec (fst p) =
    js_or (readNumber (snd p) (key_of d "restSec")) (readNumber (snd p) (key_of d "breakSec")) /\
  counters_nonneg d (snd p) = true.

(** A day that starts with 100 learning seconds and a legacy Break
    counter of 120. *)
Definition mixed_day : gmap string string :=
  {[ key_of sample_day "learnSec" := "100"; key_of sample_day "breakSec" := "120" ]}.

(** A text the store itself writes: the decimal digits of a
    non-negative integer, as [String_] prints them. *)
Definition store_text (v : string) : bool :=
  match Number_ v with
  | Some n => (0 <=? n) && String.eqb v (String_ n)
  | None => false
  end.

(** The counter [suffix] of the day [d] is absent from [items] or holds
    a text the store wrote. *)
Definition counter_ok (d : string) (items : gmap string string) (suffix : string) : bool :=
  match items !! key_of d suffix with
  | Some v => store_text v
  | None => true
  end.

(** Storage is available and each of the three counters of the day [d]
    is absent or holds a text the store wrote. *)
Definition store_written (d : string) (ls : Storage) : bool :=
  match ls with
  | Some items =>
      counter_ok d items "learnSec" && counter_ok d items "restSec"
      && counter_ok d items "breakSec"
  | None => false
  end.

End PageSpec.

Module CountdownSpec.
Import Countdown.

(** What holds of every state of a card: a live interval exactly
    while [Running], closed over the displayed target. *)
Definition consistent (s : State) : Prop :=
  0 <= remainingSec s /\ 60 <= targetSec s /\
  match status s with
  | Running =>
      elapsedSec s + remainingSec s = targetSec s /\ 0 < remainingSec s /\
      exists ts, timerRef s = Some {| startTs := ts; t := targetSec s |}
  | Done =>
      remainingSec s = 0 /\ targetSec s <= elapsedSec s /\ timerRef s = None
  | Idle | Paused => timerRef s = None
  end.

(** A card set to one minute whose completing firing comes late, 61 s
    after the start (a throttled tab). *)
Definition late_finish : State :=
  fst (run LearningCard false
         [SetMinutes (inject_Z 1); Start 0; Tick 59750; Tick 61000]
         (initial LearningCard)).

(** The number of add calls, of either category, in a list of calls. *)
Fixpoint credit_calls (cs : list call) : nat :=
  match cs with
  | [] => O
  | onAddLearn _ :: cs' | onAddRest _ :: cs' => S (credit_calls cs')
  | _ :: cs' => credit_calls cs'
  end.

(** The number of [Start] events. *)
Fixpoint starts (es : list event) : nat :=
  match es with
  | [] => O
  | Start _ :: es' => S (starts es')
  | _ :: es' => starts es'
  end.

(** 1 while a session can still credit (a live interval, or [Running]),
    0 otherwise. *)
Definition armed (s : State) : nat :=
  match timerRef s, status s with
  | Some _, _ | None, Running => 1
  | None, _ => 0
  end.

(** An add call credits at most [bound] seconds; other calls pass. *)
Definition credit_at_most (bound : Z) (c : call) : Prop :=
  match c with
  | onAddLearn n | onAddRest n => n <= bound
  | _ => True
  end.

End CountdownSpec.

Module YouTubeSpec.
Import YouTubeRestPanel.

(** The number of [onAddRest] calls in a list of calls. *)
Fixpoint rest_adds (cs : list call) : nat :=
  match cs with
  | [] => O
  | onAddRest _ :: cs' => S (rest_adds cs')
  | _ :: cs' => rest_adds cs'
  end.

(** The events of one session: everything but a new [Start rest]. *)
Definition in_session (e : event) : bool :=
  match e with
  | StartRest => false
  | _ => true
  end.

Definition watch_url : string := "https://www.youtube.com/watch?v=dQw4w9WgXcQ".

(** The player answers duration [d] at position [pos]. *)
Definition reading (d pos : Z) : Reading :=
  {| getDuration := inject_Z d; getCurrentTime := inject_Z pos |}.

(** Rest started on [watch_url]; the player is ready, plays, and the
    last poll saw position 50 of 212. *)
Definition watching_50_of_212 : State :=
  fst (run Resolver.plain_URL
         [SetInput watch_url; StartRest;
          Ready (reading 212 0); Play (reading 212 0); StateChange 1 (reading 212 0);
          Poll (reading 212 25); Poll (reading 212 50)]
         initial).

(** A panel whose video plays and is polled, with a text the resolver
    rejects typed into the field. *)
Definition playing_with_bad_input : State :=
  fst (run Resolver.plain_URL
         [SetInput watch_url; StartRest;
          Ready (reading 212 0); Play (reading 212 0); Poll (reading 212 50);
          SetInput "not a url"]
         initial).

(** The player reports a position that is not negative. *)
Definition sane (r : Reading) : bool := Qle_bool 0 (getCurrentTime r).

Definition sane_event (e : event) : bool :=
  match e with
  | Poll r | Ready r | Play r | Pause r | End_ r | StateChange _ r => sane r
  | SetInput _ | StartRest | StopRest | PlayerError => true
  end.

(** The mounted video id, when there is one, has the id shape. *)
Definition mounted_ok (s : State) : Prop :=
  match videoId s with
  | Some id => Resolver.is_video_id id = true
  | None => True
  end.

End YouTubeSpec.

(** * Properties *)

(** ** The resolver *)

Module ResolverProps.
Import JsString Resolver ResolverSpec.

Lemma is_video_id_truthy s : is_video_id s = true -> truthy s = true.
Proof.
  unfold is_video_id. intros H. apply andb_true_iff in H as [H _].
  destruct s; [discriminate | reflexivity].
Qed.

Lemma is_video_id_shape s :
  is_video_id s = true <->
  String.length s = 11%nat /\ Forall (fun c => id_char c = true) (list_ascii_of_string s).
Proof.
  unfold is_video_id. rewrite andb_true_iff, Nat.eqb_eq, forallb_forall, List.Forall_forall.
  reflexivity.
Qed.

Lemma valid_id_Some x id :
  valid_id x = Some id <-> x = Some id /\ is_video_id id = true.
Proof.
  unfold valid_id. destruct x as [s|]; [|split; [discriminate | intros [? _]; discriminate]].
  destruct (is_video_id s) eqn:E.
  - rewrite (is_video_id_truthy s E). simpl. split.
    + intros [= <-]. auto.
    + intros [[= <-] _]. reflexivity.
  - rewrite andb_false_r. split; [discriminate|].
    intros [[= <-] H]. congruence.
Qed.

Lemma valid_id_None x :
  valid_id x = None <-> (forall id, x = Some id -> is_video_id id = false).
Proof.
  split.
  - intros H id ->. destruct (is_video_id id) eqn:E; [|reflexivity].
    assert (valid_id (Some id) = Some id) as H' by (apply valid_id_Some; auto).
    congruence.
  - intros H. destruct (valid_id x) as [id|] eqn:E; [|reflexivity].
    apply valid_id_Some in E as [-> E]. specialize (H id eq_refl). congruence.
Qed.

Lemma first_at_head x l : first_at x (x :: l) O.
Proof. split; [reflexivity | intros j Hj; lia]. Qed.

Lemma first_at_skip x y l i :
  y <> x -> first_at x (y :: l) (S i) <-> first_at x l i.
Proof.
  intros Hne. unfold first_at. simpl. split; intros [H1 H2]; (split; [exact H1|]).
  - intros j Hj. apply (H2 (S j)). lia.
  - intros [|j] Hj; simpl; [congruence | apply H2; lia].
Qed.

Lemma option_map_S_inv (o : option nat) i :
  option_map S o = Some (S i) <-> o = Some i.
Proof. destruct o; simpl; split; congruence. Qed.

Lemma indexOf_Some x l i : indexOf x l = Some i <-> first_at x l i.
Proof.
  revert i. induction l as [|y l IH]; intros i; simpl.
  - split; [discriminate|]. intros [H _]. destruct i; discriminate.
  - destruct (String.eqb_spec y x) as [->|Hne].
    + split.
      * intros [= <-]. apply first_at_head.
      * intros [H Hfirst]. destruct i as [|i]; [reflexivity|].
        exfalso. apply (Hfirst O); [lia | reflexivity].
    + destruct i as [|i].
      * split.
        -- destruct (indexOf x l); discriminate.
        -- intros [[= H] _]. congruence.
      * rewrite option_map_S_inv, first_at_skip by exact Hne. apply IH.
Qed.

Lemma indexOf_None x l : indexOf x l = None <-> (forall j, nth_error l j <> Some x).
Proof.
  split.
  - intros H j Hj. revert l H Hj. induction j as [|j IHj]; intros [|y l] H Hj; simpl in *;
      try discriminate.
    + injection Hj as ->. rewrite String.eqb_refl in H. discriminate.
    + destruct (String.eqb y x); [discriminate|].
      destruct (indexOf x l) eqn:E; [discriminate|]. eapply IHj; eauto.
  - intros H. destruct (indexOf x l) as [i|] eqn:E; [|reflexivity].
    apply indexOf_Some in E as [E _]. destruct (H i E).
Qed.

Lemma segment_after_Some marker parts id :
  segment_after marker parts = Some id <-> follows marker parts id.
Proof.
  unfold segment_after, follows. split.
  - destruct (indexOf marker parts) as [i|] eqn:E; [|discriminate].
    intros H. apply valid_id_Some in H as [H1 H2].
    exists i. split; [apply indexOf_Some; exact E | auto].
  - intros (i & Hi & H1 & H2). apply indexOf_Some in Hi. rewrite Hi.
    apply valid_id_Some. auto.
Qed.

Lemma segment_after_None marker parts :
  segment_after marker parts = None <-> (forall id, ~ follows marker parts id).
Proof.
  split.
  - intros H id Hf. apply segment_after_Some in Hf. congruence.
  - intros H. destruct (segment_after marker parts) as [id|] eqn:E; [|reflexivity].
    apply segment_after_Some in E. destruct (H id E).
Qed.

Section Shapes.

Variable new_URL : string -> option URL.

Lemma resolves_recognized raw id :
  resolves new_URL raw id -> recognized new_URL raw id.
Proof.
  intros [H ->|url H0 H1 H2 H3 H4|url H0 H1 H2 H3 H4
         |url H0 H1 H2 H3 (i & [Hi _] & Hn & Hid)
         |url H0 H1 H2 H3 H4 (i & [Hi _] & Hn & Hid)]; split; trivial.
  - apply bare_id. reflexivity.
  - eapply short_link; eauto.
  - eapply watch_query; eauto.
  - eapply (marker_path new_URL _ _ url "embed" i); eauto.
  - eapply (marker_path new_URL _ _ url "shorts" i); eauto.
Qed.

Lemma extract_resolves input id :
  extractYouTubeVideoId new_URL input = Some id <-> resolves new_URL (trim input) id.
Proof.
  unfold extractYouTubeVideoId. set (raw := trim input). split.
  - destruct (is_video_id raw) eqn:Hraw.
    { intros [= <-]. apply by_bare_id; auto. }
    destruct (new_URL raw) as [url|] eqn:Hurl; [|discriminate].
    destruct (includes "youtu.be" (hostname url)) eqn:Hhost.
    { intros H. apply valid_id_Some in H as [H1 H2]. eapply by_short_link; eauto. }
    destruct (valid_id (searchParams_get "v" (searchParams url))) as [v|] eqn:Hv.
    { intros [= <-]. apply valid_id_Some in Hv as [H1 H2]. eapply by_watch_query; eauto. }
    assert (no_valid_v url) as Hnv by (unfold no_valid_v; apply valid_id_None; exact Hv).
    destruct (segment_after "embed" (path_parts url)) as [seg|] eqn:He.
    { intros [= <-]. apply segment_after_Some in He. eapply by_embed; eauto. }
    destruct (segment_after "shorts" (path_parts url)) as [seg|] eqn:Hs; [|discriminate].
    intros [= <-]. apply segment_after_Some in Hs.
    eapply by_shorts; eauto. apply segment_after_None. exact He.
  - intros [H ->|url H0 H1 H2 H3 H4|url H0 H1 H2 H3 H4
           |url H0 H1 H2 H3 H4|url H0 H1 H2 H3 H4 H5].
    + rewrite H. reflexivity.
    + rewrite H0, H1, H2. apply valid_id_Some. auto.
    + rewrite H0, H1, H2.
      assert (valid_id (searchParams_get "v" (searchParams url)) = Some id) as ->
        by (apply valid_id_Some; auto).
      reflexivity.
    + rewrite H0, H1, H2.
      unfold no_valid_v in H3. apply valid_id_None in H3. rewrite H3.
      apply segment_after_Some in H4. rewrite H4. reflexivity.
    + rewrite H0, H1, H2.
      unfold no_valid_v in H3. apply valid_id_None in H3. rewrite H3.
      apply segment_after_None in H4. rewrite H4.
      apply segment_after_Some in H5. rewrite H5. reflexivity.
Qed.

End Shapes.

Import Resolver.

Example resolve_bare : resolve "  dQw4w9WgXcQ " = Some "dQw4w9WgXcQ".
Proof. reflexivity. Qed.
Example resolve_short : resolve "https://youtu.be/dQw4w9WgXcQ" = Some "dQw4w9WgXcQ".
Proof. reflexivity. Qed.
Example resolve_watch : resolve "https://www.youtube.com/watch?v=dQw4w9WgXcQ" = Some "dQw4w9WgXcQ".
Proof. reflexivity. Qed.
Example resolve_embed : resolve "https://www.youtube.com/embed/dQw4w9WgXcQ" = Some "dQw4w9WgXcQ".
Proof. reflexivity. Qed.
Example resolve_shorts : resolve "https://www.youtube.com/shorts/dQw4w9WgXcQ" = Some "dQw4w9WgXcQ".
Proof. reflexivity. Qed.
Example resolve_text : resolve "not a url" = None.
Proof. reflexivity. Qed.

(** C3, as stated, fails: an input of the watch shape (a URL with an
    id-shaped [v] parameter) whose host is the short-link domain is
    answered Invalid, because the short-link rule is tried first and
    ends the search. *)
Lemma watch_query_on_short_link_host :
  recognized plain_URL (trim "https://youtu.be/watch?v=dQw4w9WgXcQ") "dQw4w9WgXcQ" /\
  extractYouTubeVideoId plain_URL "https://youtu.be/watch?v=dQw4w9WgXcQ" = None.
Proof.
  split; [|reflexivity]. split; [reflexivity|].
  eapply watch_query; reflexivity.
Qed.

(** C3, amended: the resolver answers [id] exactly when the rules, taken
    in order (bare id, short-link host, [v] parameter, first [embed]
    marker, first [shorts] marker), select [id]; every answer is an
    11-character id over [[A-Za-z0-9_-]] carried by the input in one of
    the four shapes; an input of none of the shapes is Invalid.  The
    function is total: a failing URL constructor is the answer [None]. *)
Theorem resolve_first_match (new_URL : string -> option URL) (input : string) :
  (forall id, extractYouTubeVideoId new_URL input = Some id <->
              resolves new_URL (trim input) id) /\
  (forall id, extractYouTubeVideoId new_URL input = Some id ->
              String.length id = 11%nat /\
              Forall (fun c => id_char c = true) (list_ascii_of_string id) /\
              shape new_URL (trim input) id) /\
  ((forall id, ~ recognized new_URL (trim input) id) ->
   extractYouTubeVideoId new_URL input = None).
Proof.
  split; [|split].
  - intros id. apply extract_resolves.
  - intros id H. apply extract_resolves, resolves_recognized in H as [H1 H2].
    apply is_video_id_shape in H1 as [Hlen Hchars]. auto.
  - intros H. destruct (extractYouTubeVideoId new_URL input) as [id|] eqn:E; [|reflexivity].
    apply extract_resolves, resolves_recognized in E. destruct (H id E).
Qed.

End ResolverProps.

(** ** The daily totals store *)

Module PageProps.
Import JsString Page PageSpec.

Lemma truthy_key_of d suffix : truthy (key_of d suffix) = true.
Proof. reflexivity. Qed.

Lemma append_inv_head (p a b : string) : (p ++ a = p ++ b)%string -> a = b.
Proof. induction p as [|c p IH]; simpl; [auto|]. intros [= H]. auto. Qed.

Lemma key_of_inj d a b : key_of d a = key_of d b -> a = b.
Proof.
  unfold key_of. intros H.
  apply (append_inv_head "ytdoro:") in H.
  apply (append_inv_head d) in H.
  apply (append_inv_head ":") in H. exact H.
Qed.

Lemma keys_resolved d :
  truthy d = true ->
  keys d = {| learn := key_of d "learnSec"; rest := key_of d "restSec";
              legacyBreak := key_of d "breakSec" |}.
Proof. unfold keys. intros ->. reflexivity. Qed.

Lemma keys_unresolved : keys "" = {| learn := ""; rest := ""; legacyBreak := "" |}.
Proof. reflexivity. Qed.

(** The day key of any date is a non-empty string. *)
Lemma truthy_dayKey date : truthy (dayKey date) = true.
Proof.
  unfold dayKey, truthy.
  destruct (String_ (getFullYear date)); reflexivity.
Qed.

Lemma String_nonempty n : truthy (String_ n) = true.
Proof.
  unfold String_, truthy.
  assert (Z.to_int n <> Decimal.Pos Decimal.Nil) as Hn.
  { intros E. pose proof (DecimalZ.to_of (Z.to_int n)) as H.
    rewrite DecimalZ.of_to in H. rewrite E in H. discriminate. }
  destruct (Z.to_int n) as [u|u]; simpl.
  - destruct u; try reflexivity. congruence.
  - reflexivity.
Qed.

(** Reading back what [String_] printed. *)
Lemma Number_String_ n : Number_ (String_ n) = Some n.
Proof.
  unfold Number_, String_. rewrite NilEmpty.isi. simpl.
  rewrite DecimalZ.of_to. reflexivity.
Qed.

Lemma readNumber_written items key value :
  readNumber (writeNumber (Some items) key value) key = Z.max 0 value.
Proof.
  unfold readNumber, writeNumber. rewrite lookup_insert_eq.
  rewrite String_nonempty, Number_String_. reflexivity.
Qed.

Lemma readNumber_other ls key key' value :
  key <> key' -> readNumber (writeNumber ls key value) key' = readNumber ls key'.
Proof.
  intros Hne. destruct ls as [items|]; simpl; [|reflexivity].
  rewrite lookup_insert_ne by exact Hne. reflexivity.
Qed.

Lemma readNumber_unavailable key : readNumber None key = 0.
Proof. reflexivity. Qed.

(** The mount callback never reaches its [writeNumber]: its guard
    tests [rest], which already holds the legacy value. *)
Lemma mount_writes_nothing d s ls : snd (mount d s ls) = ls.
Proof.
  unfold mount, js_or. simpl.
  destruct (readNumber ls (key_of d "restSec") =? 0) eqn:E.
  - destruct (readNumber ls (key_of d "breakSec") =? 0) eqn:E'; simpl; [|reflexivity].
    apply Z.eqb_eq in E'. rewrite E'. reflexivity.
  - rewrite E. reflexivity.
Qed.

Lemma mount_totals d s ls :
  today (fst (mount d s ls)) = d /\
  totalLearnSec (fst (mount d s ls)) = readNumber ls (key_of d "learnSec") /\
  totalRestSec (fst (mount d s ls)) =
    js_or (readNumber ls (key_of d "restSec")) (readNumber ls (key_of d "breakSec")).
Proof. repeat split. Qed.

Lemma perform_all_totals k cs p :
  totalLearnSec (fst (perform_all k cs p)) = totalLearnSec (fst p) + learn_credit cs /\
  totalRestSec (fst (perform_all k cs p)) = totalRestSec (fst p) + rest_credit cs.
Proof.
  revert p. induction cs as [|c cs IH]; intros p; simpl.
  - lia.
  - destruct (IH (perform k c p)) as [IH1 IH2]. 
    unfold perform_all in *. simpl. rewrite IH1, IH2.
    destruct c; destruct p as [s ls]; unfold perform, addLearn, addRest;
      cbn [fst snd totalLearnSec totalRestSec learn_credit rest_credit];
      rewrite ?Qfloor_Z; lia.
Qed.

(** *** Migration at the first read of the day *)

Example sample_day_text : sample_day = "2026-11-02".
Proof. reflexivity. Qed.

(** C4: when the Rest key reads as absent or zero and the legacy Break
    key reads as a positive value, the mount callback adopts the legacy
    value as the in-memory Rest total, but it does not write it
    forward: storage is left as it was and the Rest key still reads
    zero.  The guard of the write tests [rest === 0] after [rest] has
    taken the legacy value. *)
Theorem mount_adopts_legacy_without_writing (d : string) (s : State) (ls : Storage) :
  readNumber ls (key_of d "restSec") = 0 ->
  0 < readNumber ls (key_of d "breakSec") ->
  totalRestSec (fst (mount d s ls)) = readNumber ls (key_of d "breakSec") /\
  snd (mount d s ls) = ls /\
  readNumber (snd (mount d s ls)) (key_of d "restSec") = 0.
Proof.
  intros Hrest Hlegacy. rewrite mount_writes_nothing.
  split; [|split; [reflexivity | exact Hrest]].
  unfold mount, js_or. simpl. rewrite Hrest. reflexivity.
Qed.

Lemma mount_adopts_legacy_without_writing_sample :
  readNumber legacy_only (key_of sample_day "restSec") = 0 /\
  0 < readNumber legacy_only (key_of sample_day "breakSec") /\
  totalRestSec (fst (mount sample_day initial legacy_only)) = 120 /\
  snd (mount sample_day initial legacy_only) = legacy_only /\
  readNumber (snd (mount sample_day initial legacy_only)) (key_of sample_day "restSec") = 0.
Proof.
  assert (readNumber legacy_only (key_of sample_day "restSec") = 0) as H0
    by (vm_compute; reflexivity).
  assert (0 < readNumber legacy_only (key_of sample_day "breakSec")) as H1
    by (vm_compute; reflexivity).
  split; [exact H0|]. split; [exact H1|].
  destruct (mount_adopts_legacy_without_writing sample_day initial legacy_only H0 H1)
    as (A & B & C).
  split; [|split; [exact B | exact C]].
  rewrite A. vm_compute. reflexivity.
Defined.

(** *** Adds that arrive before the day key is resolved *)

(** C5, as stated, fails: 30 seconds added before resolution are not
    persisted, and once the mount callback has run the displayed total
    is the stored 100, not 130. *)
Lemma add_before_resolution_is_dropped :
  snd (addLearn (keys (today initial)) (inject_Z 30) initial learned_100) = learned_100 /\
  totalLearnSec (fst (addLearn (keys (today initial)) (inject_Z 30) initial learned_100)) = 30 /\
  totalLearnSec
    (fst (mount sample_day
            (fst (addLearn (keys (today initial)) (inject_Z 30) initial learned_100))
            (snd (addLearn (keys (today initial)) (inject_Z 30) initial learned_100)))) = 100 /\
  100 <> readNumber learned_100 (key_of sample_day "learnSec") + 30.
Proof.
  split; [reflexivity|]. split; [reflexivity|].
  split; [vm_compute; reflexivity | vm_compute; discriminate].
Qed.

(** C5, amended: an add that arrives before the day key is resolved
    writes nothing to storage and is added to the in-memory total of
    its category; when resolution completes, the displayed totals are
    the values restored from storage alone (Rest falling back to the
    legacy Break value), whatever was added before. *)
Theorem add_before_resolution (s : State) (ls : Storage) (seconds : Q) (d : string) :
  today s = "" ->
  snd (addLearn (keys (today s)) seconds s ls) = ls /\
  snd (addRest (keys (today s)) seconds s ls) = ls /\
  totalLearnSec (fst (addLearn (keys (today s)) seconds s ls)) =
    totalLearnSec s + Z.max 0 (Qfloor seconds) /\
  totalRestSec (fst (addRest (keys (today s)) seconds s ls)) =
    totalRestSec s + Z.max 0 (Qfloor seconds) /\
  totalLearnSec (fst (mount d (fst (addLearn (keys (today s)) seconds s ls))
                             (snd (addLearn (keys (today s)) seconds s ls)))) =
    readNumber ls (key_of d "learnSec") /\
  totalRestSec (fst (mount d (fst (addRest (keys (today s)) seconds s ls))
                            (snd (addRest (keys (today s)) seconds s ls)))) =
    js_or (readNumber ls (key_of d "restSec")) (readNumber ls (key_of d "breakSec")).
Proof. intros ->. repeat split. Qed.

Lemma add_before_resolution_sample :
  today initial = "" /\
  totalLearnSec
    (fst (mount sample_day
            (fst (addLearn (keys (today initial)) (inject_Z 30) initial learned_100))
            (snd (addLearn (keys (today initial)) (inject_Z 30) initial learned_100)))) =
  readNumber learned_100 (key_of sample_day "learnSec").
Proof.
  split; [reflexivity|].
  apply (add_before_resolution initial learned_100 (inject_Z 30) sample_day eq_refl).
Defined.

(** *** [add] *)

Lemma credits_nonneg cs : 0 <= learn_credit cs /\ 0 <= rest_credit cs.
Proof. induction cs as [|[] cs [IH1 IH2]]; simpl; lia. Qed.

(** C8, as stated, fails: an add is not always persisted.  Made before
    the day key is resolved, 30 learning seconds and 45 rest seconds
    become the in-memory totals while storage is left exactly as it
    was: the day's Learning key still reads 100 and its Rest key 0. *)
Lemma add_unresolved_persists_nothing :
  totalLearnSec (fst (addLearn (keys (today initial)) (inject_Z 30) initial learned_100)) = 30 /\
  snd (addLearn (keys (today initial)) (inject_Z 30) initial learned_100) = learned_100 /\
  readNumber (snd (addLearn (keys (today initial)) (inject_Z 30) initial learned_100))
    (key_of sample_day "learnSec") = 100 /\
  totalRestSec (fst (addRest (keys (today initial)) (inject_Z 45) initial learned_100)) = 45 /\
  snd (addRest (keys (today initial)) (inject_Z 45) initial learned_100) = learned_100 /\
  readNumber (snd (addRest (keys (today initial)) (inject_Z 45) initial learned_100))
    (key_of sample_day "restSec") = 0.
Proof.
  split; [reflexivity|]. split; [reflexivity|]. split; [vm_compute; reflexivity|].
  split; [reflexivity|]. split; [reflexivity|]. vm_compute; reflexivity.
Qed.

(** C8, amended: [addLearn] and [addRest] clamp the argument to
    [max(0, floor(seconds))] and make the sum with the in-memory total
    the new total, leaving the other total alone; the sum is what the
    state updater returns, the add itself returns nothing.  With the
    day key resolved and storage available the sum, clamped at 0, is
    written under the category's key and under no other (and, the
    total being non-negative, the sum is what is read back); before the
    day key is resolved storage is left as it was, and unavailable
    storage stays unavailable.  Totals never decrease over any sequence
    of adds; adding -5 is adding 0. *)
Theorem add_clamps_sums_persists (k : Keys) (s : State) (ls : Storage) (seconds : Q) :
  (0 <= Z.max 0 (Qfloor seconds)) /\
  (totalLearnSec (fst (addLearn k seconds s ls)) = totalLearnSec s + Z.max 0 (Qfloor seconds) /\
   totalRestSec (fst (addLearn k seconds s ls)) = totalRestSec s /\
   totalRestSec (fst (addRest k seconds s ls)) = totalRestSec s + Z.max 0 (Qfloor seconds) /\
   totalLearnSec (fst (addRest k seconds s ls)) = totalLearnSec s) /\
  (forall date items,
      snd (addLearn (keys (dayKey date)) seconds s (Some items)) =
        Some (<[key_of (dayKey date) "learnSec" :=
                  String_ (Z.max 0 (totalLearnSec s + Z.max 0 (Qfloor seconds)))]> items) /\
      snd (addRest (keys (dayKey date)) seconds s (Some items)) =
        Some (<[key_of (dayKey date) "restSec" :=
                  String_ (Z.max 0 (totalRestSec s + Z.max 0 (Qfloor seconds)))]> items) /\
      (0 <= totalLearnSec s ->
       readNumber (snd (addLearn (keys (dayKey date)) seconds s (Some items)))
         (key_of (dayKey date) "learnSec") =
         totalLearnSec s + Z.max 0 (Qfloor seconds)) /\
      (0 <= totalRestSec s ->
       readNumber (snd (addRest (keys (dayKey date)) seconds s (Some items)))
         (key_of (dayKey date) "restSec") =
         totalRestSec s + Z.max 0 (Qfloor seconds))) /\
  (forall cs,
      totalLearnSec s <= totalLearnSec (fst (perform_all k cs (s, ls))) /\
      totalRestSec s <= totalRestSec (fst (perform_all k cs (s, ls)))) /\
  (addLearn k (inject_Z (-5)) s ls = addLearn k (inject_Z 0) s ls /\
   addRest k (inject_Z (-5)) s ls = addRest k (inject_Z 0) s ls) /\
  (addLearn k seconds s ls =
     ({| today := today s;
         totalLearnSec :=
           fst (addLearn_updater k (Z.max 0 (Qfloor seconds)) (totalLearnSec s) ls);
         totalRestSec := totalRestSec s |},
      snd (addLearn_updater k (Z.max 0 (Qfloor seconds)) (totalLearnSec s) ls)) /\
   fst (addLearn_updater k (Z.max 0 (Qfloor seconds)) (totalLearnSec s) ls) =
     totalLearnSec s + Z.max 0 (Qfloor seconds) /\
   addRest k seconds s ls =
     ({| today := today s;
         totalLearnSec := totalLearnSec s;
         totalRestSec :=
           fst (addRest_updater k (Z.max 0 (Qfloor seconds)) (totalRestSec s) ls) |},
      snd (addRest_updater k (Z.max 0 (Qfloor seconds)) (totalRestSec s) ls)) /\
   fst (addRest_updater k (Z.max 0 (Qfloor seconds)) (totalRestSec s) ls) =
     totalRestSec s + Z.max 0 (Qfloor seconds)) /\
  (snd (addLearn (keys "") seconds s ls) = ls /\
   snd (addRest (keys "") seconds s ls) = ls) /\
  (snd (addLearn k seconds s None) = None /\
   snd (addRest k seconds s None) = None) /\
  (today (fst (addLearn k seconds s ls)) = today s /\
   today (fst (addRest k seconds s ls)) = today s).
Proof.
  split; [lia|]. split; [repeat split|]. split; [|split; [|split; [|split; [|split; [|split]]]]].
  - intros date items. rewrite (keys_resolved _ (truthy_dayKey date)).
    unfold addLearn, addRest. cbn [fst snd learn rest]. rewrite !truthy_key_of.
    split; [reflexivity|]. split; [reflexivity|].
    split; intros H; rewrite readNumber_written; lia.
  - intros cs. destruct (perform_all_totals k cs (s, ls)) as [H1 H2].
    destruct (credits_nonneg cs). cbn [fst] in *. lia.
  - split; reflexivity.
  - repeat split.
  - split; reflexivity.
  - unfold addLearn, addRest. cbn [snd].
    destruct (truthy (learn k)), (truthy (rest k)); split; reflexivity.
  - split; reflexivity.
Qed.

(** The sum is on disk after an add in the resolved phase. *)
Example add_persists_sample :
  readNumber
    (snd (addLearn (keys sample_day) (7 # 2)
            {| today := sample_day; totalLearnSec := 100; totalRestSec := 0 |} learned_100))
    (key_of sample_day "learnSec") = 103.
Proof. vm_compute. reflexivity. Qed.

(** *** [resetToday] *)

Lemma reset_zeroes_storage d s ls :
  truthy d = true ->
  readNumber (snd (resetToday (keys d) s ls)) (key_of d "learnSec") = 0 /\
  readNumber (snd (resetToday (keys d) s ls)) (key_of d "restSec") = 0 /\
  readNumber (snd (resetToday (keys d) s ls)) (key_of d "breakSec") = 0.
Proof.
  intros Hd. rewrite (keys_resolved d Hd). unfold resetToday.
  cbn [fst snd learn rest legacyBreak]. rewrite !truthy_key_of.
  destruct ls as [items|]; [|repeat split].
  assert (key_of d "restSec" <> key_of d "learnSec") as N1
    by (intros E; apply key_of_inj in E; discriminate).
  assert (key_of d "breakSec" <> key_of d "learnSec") as N2
    by (intros E; apply key_of_inj in E; discriminate).
  assert (key_of d "breakSec" <> key_of d "restSec") as N3
    by (intros E; apply key_of_inj in E; discriminate).
  split; [|split].
  - rewrite !readNumber_other by assumption. apply readNumber_written.
  - rewrite readNumber_other by assumption. apply readNumber_written.
  - apply readNumber_written.
Qed.

(** C9, as stated, fails: a reset made before the day key is resolved
    zeroes the totals in memory and writes nothing, so the first read
    of the day that follows shows the stored 100 learning seconds and
    the 120 seconds of the legacy Break counter again. *)
Lemma reset_before_resolution_is_undone :
  totalLearnSec (fst (resetToday (keys (today initial)) initial (Some mixed_day))) = 0 /\
  totalRestSec (fst (resetToday (keys (today initial)) initial (Some mixed_day))) = 0 /\
  snd (resetToday (keys (today initial)) initial (Some mixed_day)) = Some mixed_day /\
  totalLearnSec
    (fst (mount sample_day
            (fst (resetToday (keys (today initial)) initial (Some mixed_day)))
            (snd (resetToday (keys (today initial)) initial (Some mixed_day))))) = 100 /\
  totalRestSec
    (fst (mount sample_day
            (fst (resetToday (keys (today initial)) initial (Some mixed_day)))
            (snd (resetToday (keys (today initial)) initial (Some mixed_day))))) = 120.
Proof.
  split; [reflexivity|]. split; [reflexivity|]. split; [reflexivity|].
  split; vm_compute; reflexivity.
Qed.

(** C9, amended: after [resetToday] both in-memory totals are 0 in
    every state and the day is kept.  When the day key is resolved at
    the time of the reset, the three persisted keys of the day
    (Learning, Rest and the legacy Break key) are set to the text of 0
    and no other key is touched, so they read 0 and the next first read
    of that day restores 0 for both categories -- also when the totals
    being reset came from a migration that had adopted a non-zero
    legacy value.  Unavailable storage stays unavailable.  A reset made
    before the day key is resolved leaves storage as it was, and the
    first read that follows is the one storage gave before the reset. *)
Theorem reset_then_read_is_zero (s : State) (ls : Storage) :
  (forall k,
      totalLearnSec (fst (resetToday k s ls)) = 0 /\
      totalRestSec (fst (resetToday k s ls)) = 0) /\
  (forall date s',
      readNumber (snd (resetToday (keys (dayKey date)) s ls))
        (key_of (dayKey date) "learnSec") = 0 /\
      readNumber (snd (resetToday (keys (dayKey date)) s ls))
        (key_of (dayKey date) "restSec") = 0 /\
      readNumber (snd (resetToday (keys (dayKey date)) s ls))
        (key_of (dayKey date) "breakSec") = 0 /\
      totalLearnSec (fst (mount (dayKey date) s'
        (snd (resetToday (keys (dayKey date)) s ls)))) = 0 /\
      totalRestSec (fst (mount (dayKey date) s'
        (snd (resetToday (keys (dayKey date)) s ls)))) = 0) /\
  (forall date s0 s',
      totalLearnSec (fst (mount (dayKey date) s'
        (snd (resetToday (keys (today (fst (mount (dayKey date) s0 ls))))
                (fst (mount (dayKey date) s0 ls))
                (snd (mount (dayKey date) s0 ls)))))) = 0 /\
      totalRestSec (fst (mount (dayKey date) s'
        (snd (resetToday (keys (today (fst (mount (dayKey date) s0 ls))))
                (fst (mount (dayKey date) s0 ls))
                (snd (mount (dayKey date) s0 ls)))))) = 0) /\
  (forall k, today (fst (resetToday k s ls)) = today s) /\
  (forall date items,
      snd (resetToday (keys (dayKey date)) s (Some items)) =
        Some (<[key_of (dayKey date) "breakSec" := String_ 0]>
                (<[key_of (dayKey date) "restSec" := String_ 0]>
                   (<[key_of (dayKey date) "learnSec" := String_ 0]> items)))) /\
  (forall k, snd (resetToday k s None) = None) /\
  (snd (resetToday (keys "") s ls) = ls /\
   forall d s', mount d s' (snd (resetToday (keys "") s ls)) = mount d s' ls).
Proof.
  assert (forall d s1 ls1 s', truthy d = true ->
            totalLearnSec (fst (mount d s' (snd (resetToday (keys d) s1 ls1)))) = 0 /\
            totalRestSec (fst (mount d s' (snd (resetToday (keys d) s1 ls1)))) = 0) as Hread.
  { intros d s1 ls1 s' Hd.
    destruct (reset_zeroes_storage d s1 ls1 Hd) as (H1 & H2 & H3).
    destruct (mount_totals d s' (snd (resetToday (keys d) s1 ls1))) as (_ & M1 & M2).
    rewrite M1, M2, H1, H2, H3. split; reflexivity. }
  split; [|split; [|split; [|split; [|split; [|split]]]]].
  - intros k. split; reflexivity.
  - intros date s'. pose proof (truthy_dayKey date) as Hd.
    destruct (reset_zeroes_storage _ s ls Hd) as (H1 & H2 & H3).
    destruct (Hread _ s ls s' Hd) as [R1 R2]. auto 6.
  - intros date s0 s'. apply Hread. apply truthy_dayKey.
  - intros k. reflexivity.
  - intros date items. rewrite (keys_resolved _ (truthy_dayKey date)).
    unfold resetToday. cbn [fst snd learn rest legacyBreak].
    rewrite !truthy_key_of. reflexivity.
  - intros k. unfold resetToday. cbn [snd].
    destruct (truthy (learn k)), (truthy (rest k)), (truthy (legacyBreak k)); reflexivity.
  - split; [reflexivity|]. intros d s'. reflexivity.
Qed.

(** A day that starts with only the legacy counter: migration shows
    120, reset, and the next first read shows 0. *)
Example reset_after_migration_sample :
  totalRestSec (fst (mount sample_day initial legacy_only)) = 120 /\
  totalRestSec (fst (mount sample_day initial
    (snd (resetToday (keys sample_day) (fst (mount sample_day initial legacy_only))
            (snd (mount sample_day initial legacy_only)))))) = 0.
Proof. vm_compute. split; reflexivity. Qed.

End PageProps.

(** ** The countdown engine *)

Module CountdownProps.
Import Countdown CountdownSpec.

Section Card.

Variable c : card.
Variable granted : bool.

Lemma initial_consistent : consistent (initial c).
Proof. unfold consistent, initial. destruct c; simpl; repeat split; lia. Qed.

Lemma start_consistent now s : consistent (fst (start c now s)).
Proof.
  unfold consistent, start. cbn [fst status remainingSec targetSec elapsedSec timerRef].
  repeat split; try lia. eexists. reflexivity.
Qed.

Lemma tick_consistent now s : consistent s -> consistent (fst (tick c granted now s)).
Proof.
  unfold tick. destruct (timerRef s) as [iv|] eqn:Ht; [|trivial].
  intros (Hrem & Htar & Hst).
  destruct (status s) eqn:Es;
    [congruence | | congruence | destruct Hst as (_ & _ & Hst); congruence].
  destruct Hst as (Hsum & Hpos & ts & Hiv). rewrite Ht in Hiv. injection Hiv as ->.
  cbn [startTs t].
  destruct (Z.max 0 (targetSec s - (now - ts) / 1000) <=? 0) eqn:Ez;
    [apply Z.leb_le in Ez | apply Z.leb_gt in Ez];
    unfold consistent;
    cbn [fst status remainingSec targetSec elapsedSec timerRef]; rewrite ?Es.
  - repeat split; lia.
  - repeat split; try lia. exists ts. first [reflexivity | exact Ht].
Qed.

Lemma stop_consistent s : consistent s -> consistent (fst (stop c s)).
Proof.
  unfold stop, consistent. destruct (status s) eqn:Es; cbn [fst]; rewrite ?Es; trivial.
  cbn [status remainingSec targetSec elapsedSec timerRef]. intuition.
Qed.

Lemma step_consistent e s : consistent s -> consistent (fst (step c granted e s)).
Proof.
  destruct e; simpl.
  - unfold consistent, setMinutes. simpl. trivial.
  - intros _. apply start_consistent.
  - apply tick_consistent.
  - apply stop_consistent.
  - destruct c; cbn [fst]; [trivial|].
    unfold consistent, reset. simpl. intuition lia.
Qed.

Lemma run_cons e es s :
  run c granted (e :: es) s =
  (fst (run c granted es (fst (step c granted e s))),
   (snd (step c granted e s) ++ snd (run c granted es (fst (step c granted e s))))%list).
Proof.
  simpl. destruct (step c granted e s) as [s1 cs1]. cbn [fst snd].
  destruct (run c granted es s1) as [s2 cs2]. reflexivity.
Qed.

Lemma run_app es1 es2 s :
  run c granted (es1 ++ es2)%list s =
  (fst (run c granted es2 (fst (run c granted es1 s))),
   (snd (run c granted es1 s) ++ snd (run c granted es2 (fst (run c granted es1 s))))%list).
Proof.
  revert s. induction es1 as [|e es1 IH]; intros s.
  - simpl. destruct (run c granted es2 s). reflexivity.
  - change ((e :: es1) ++ es2)%list with (e :: (es1 ++ es2))%list.
    rewrite !run_cons, IH. cbn [fst snd]. rewrite <- app_assoc. reflexivity.
Qed.

Lemma run_consistent es s : consistent s -> consistent (fst (run c granted es s)).
Proof.
  revert s. induction es as [|e es IH]; intros s Hs; [exact Hs|].
  rewrite run_cons. cbn [fst]. apply IH, step_consistent, Hs.
Qed.

(** A later firing never shows more remaining time. *)
Lemma tick_tick_remaining now1 now2 s :
  now1 <= now2 ->
  remainingSec (fst (tick c granted now2 (fst (tick c granted now1 s))))
  <= remainingSec (fst (tick c granted now1 s)).
Proof.
  intros Hle. unfold tick at 2 3. destruct (timerRef s) as [iv|] eqn:Ht.
  - destruct (Z.max 0 (t iv - (now1 - startTs iv) / 1000) <=? 0) eqn:Ez; cbn [fst].
    + unfold tick. cbn [timerRef fst]. lia.
    + unfold tick. cbn [timerRef]. rewrite ?Ht.
      assert ((now1 - startTs iv) / 1000 <= (now2 - startTs iv) / 1000)
        by (apply Z.div_le_mono; lia).
      destruct (Z.max 0 (t iv - (now2 - startTs iv) / 1000) <=? 0);
        cbn [fst remainingSec]; lia.
  - cbn [fst]. unfold tick. rewrite Ht. cbn [fst]. lia.
Qed.

Lemma start_tick_remaining now0 now s :
  now0 <= now ->
  remainingSec (fst (tick c granted now (fst (start c now0 s))))
  <= remainingSec (fst (start c now0 s)).
Proof.
  intros Hle. unfold start, tick. cbn [fst timerRef startTs t].
  assert (0 <= (now - now0) / 1000) by (apply Z.div_pos; lia).
  destruct (Z.max 0 (Z.max 1 (Qfloor (minutes s)) * 60 - (now - now0) / 1000) <=? 0);
    cbn [fst remainingSec]; lia.
Qed.

End Card.

(** *** The sum of elapsed and remaining *)

(** C2, as stated, fails in [Done]: the late firing stores the measured
    61 elapsed seconds next to a remaining time clamped at 0, for a
    target of 60. *)
Lemma late_finish_breaks_sum :
  status late_finish = Done /\
  targetSec late_finish = 60 /\
  elapsedSec late_finish = 61 /\
  remainingSec late_finish = 0 /\
  elapsedSec late_finish + remainingSec late_finish <> targetSec late_finish.
Proof. vm_compute. repeat split; discriminate. Qed.

(** C2, amended: in every state a card reaches, remaining is
    non-negative and the target is at least 60; while [Running],
    elapsed + remaining = target and remaining is positive; in [Done],
    remaining is 0 and elapsed is at least the target (the sum is the
    measured elapsed time, which equals the target only when the
    completing firing is not late).  Over successive firings whose clock
    readings do not go back, remaining never increases, from the start
    on, and stays 0 once reached. *)
Theorem countdown_sum_invariant (c : card) (granted : bool) (es : list event) :
  (0 <= remainingSec (fst (run c granted es (initial c))) /\
   60 <= targetSec (fst (run c granted es (initial c)))) /\
  (status (fst (run c granted es (initial c))) = Running ->
   elapsedSec (fst (run c granted es (initial c)))
     + remainingSec (fst (run c granted es (initial c)))
     = targetSec (fst (run c granted es (initial c))) /\
   0 < remainingSec (fst (run c granted es (initial c)))) /\
  (status (fst (run c granted es (initial c))) = Done ->
   remainingSec (fst (run c granted es (initial c))) = 0 /\
   targetSec (fst (run c granted es (initial c)))
     <= elapsedSec (fst (run c granted es (initial c)))) /\
  (forall now1 now2,
      now1 <= now2 ->
      remainingSec (fst (tick c granted now2
                          (fst (tick c granted now1 (fst (run c granted es (initial c)))))))
      <= remainingSec (fst (tick c granted now1 (fst (run c granted es (initial c)))))) /\
  (forall now0 now,
      now0 <= now ->
      remainingSec (fst (tick c granted now
                          (fst (start c now0 (fst (run c granted es (initial c)))))))
      <= remainingSec (fst (start c now0 (fst (run c granted es (initial c)))))) /\
  (forall now,
      status (fst (run c granted es (initial c))) = Done ->
      tick c granted now (fst (run c granted es (initial c)))
      = (fst (run c granted es (initial c)), [])).
Proof.
  pose proof (run_consistent c granted es (initial c) (initial_consistent c)) as H.
  set (s := fst (run c granted es (initial c))) in *.
  destruct H as (Hrem & Htar & Hst).
  split; [split; assumption|]. split; [|split; [|split; [|split]]].
  - intros E. rewrite E in Hst. tauto.
  - intros E. rewrite E in Hst. tauto.
  - intros now1 now2. apply tick_tick_remaining.
  - intros now0 now. apply start_tick_remaining.
  - intros now E. rewrite E in Hst. destruct Hst as (_ & _ & Ht).
    unfold tick. rewrite Ht. reflexivity.
Qed.

(** *** Reaching zero *)

Lemma early_ticks c granted (early : list Z) s ts tt :
  timerRef s = Some {| startTs := ts; t := tt |} ->
  forallb (fun n => (n - ts) / 1000 <? tt) early = true ->
  timerRef (fst (run c granted (map Tick early) s)) = Some {| startTs := ts; t := tt |} /\
  status (fst (run c granted (map Tick early) s)) = status s /\
  targetSec (fst (run c granted (map Tick early) s)) = targetSec s /\
  snd (run c granted (map Tick early) s) = [].
Proof.
  revert s. induction early as [|n early IH]; intros s Ht Hall; [auto|].
  cbn [forallb] in Hall. apply andb_true_iff in Hall as [Hn Hall].
  apply Z.ltb_lt in Hn.
  cbn [map]. rewrite run_cons. cbn [fst snd step].
  assert (tick c granted n s =
          ({| minutes := minutes s; status := status s; startedAt := startedAt s;
              targetSec := targetSec s; elapsedSec := (n - ts) / 1000;
              remainingSec := Z.max 0 (tt - (n - ts) / 1000);
              timerRef := timerRef s |}, [])) as ->.
  { unfold tick. rewrite Ht. cbn [startTs t].
    destruct (Z.max 0 (tt - (n - ts) / 1000) <=? 0) eqn:E; [|reflexivity].
    apply Z.leb_le in E. lia. }
  cbn [fst snd].
  match goal with |- context [run c granted (map Tick early) ?x] => set (s' := x) end.
  destruct (IH s' Ht Hall) as (A & B & C & D).
  rewrite A, B, C, D. auto.
Qed.

Lemma completing_tick c granted now s ts tt :
  timerRef s = Some {| startTs := ts; t := tt |} ->
  tt <= (now - ts) / 1000 ->
  tick c granted now s =
    ({| minutes := minutes s; status := Done; startedAt := startedAt s;
        targetSec := targetSec s; elapsedSec := (now - ts) / 1000;
        remainingSec := 0; timerRef := None |},
     onAdd c tt :: beepTriple :: notify c granted).
Proof.
  intros Ht Hle. unfold tick. rewrite Ht. cbn [startTs t].
  replace (Z.max 0 (tt - (now - ts) / 1000)) with 0 by lia. reflexivity.
Qed.

(** With the interval cleared, further firings find nothing to run. *)
Lemma cleared_ticks c granted (later : list Z) s :
  timerRef s = None -> run c granted (map Tick later) s = (s, []).
Proof.
  intros Ht. induction later as [|n later IH]; [reflexivity|].
  cbn [map]. rewrite run_cons. cbn [step].
  assert (tick c granted n s = (s, [])) as -> by (unfold tick; rewrite Ht; reflexivity).
  cbn [fst snd]. rewrite IH. reflexivity.
Qed.

(** C6: a session started from the minutes field runs until the first
    firing at which the whole target has elapsed; that firing moves the
    card to [Done], calls the category's add with the full target (not
    the measured elapsed time), then the beep and, for learning with
    permission granted, the system notification, and clears the
    interval, so that later firings change nothing and call nothing.
    The category's total grows by exactly the target. *)
Theorem countdown_reaches_zero
    (c : card) (granted : bool) (s0 : State) (now0 : Z)
    (early : list Z) (now : Z) (later : list Z)
    (k : Page.Keys) (page : Page.State) (ls : Page.Storage) :
  forallb (fun n => (n - now0) / 1000 <? Z.max 1 (Qfloor (minutes s0)) * 60) early = true ->
  Z.max 1 (Qfloor (minutes s0)) * 60 <= (now - now0) / 1000 ->
  status (fst (run c granted (Start now0 :: map Tick early ++ Tick now :: map Tick later) s0))
    = Done /\
  targetSec (fst (run c granted (Start now0 :: map Tick early ++ Tick now :: map Tick later) s0))
    = Z.max 1 (Qfloor (minutes s0)) * 60 /\
  remainingSec (fst (run c granted (Start now0 :: map Tick early ++ Tick now :: map Tick later) s0))
    = 0 /\
  elapsedSec (fst (run c granted (Start now0 :: map Tick early ++ Tick now :: map Tick later) s0))
    = (now - now0) / 1000 /\
  timerRef (fst (run c granted (Start now0 :: map Tick early ++ Tick now :: map Tick later) s0))
    = None /\
  snd (run c granted (Start now0 :: map Tick early ++ Tick now :: map Tick later) s0)
    = primeAudio :: onAdd c (Z.max 1 (Qfloor (minutes s0)) * 60)
        :: beepTriple :: notify c granted /\
  match c with
  | LearningCard =>
      Page.totalLearnSec (fst (Page.perform_all k
        (snd (run c granted (Start now0 :: map Tick early ++ Tick now :: map Tick later) s0))
        (page, ls)))
      = Page.totalLearnSec page + Z.max 1 (Qfloor (minutes s0)) * 60
  | PlainRestPanel =>
      Page.totalRestSec (fst (Page.perform_all k
        (snd (run c granted (Start now0 :: map Tick early ++ Tick now :: map Tick later) s0))
        (page, ls)))
      = Page.totalRestSec page + Z.max 1 (Qfloor (minutes s0)) * 60
  end.
Proof.
  intros Hearly Hnow.
  set (tt := Z.max 1 (Qfloor (minutes s0)) * 60) in *.
  rewrite run_cons. cbn [step].
  set (s1 := fst (start c now0 s0)).
  assert (snd (start c now0 s0) = [primeAudio]) as -> by reflexivity.
  assert (timerRef s1 = Some {| startTs := now0; t := tt |}) as Ht1 by reflexivity.
  assert (targetSec s1 = tt) as Htar1 by reflexivity.
  rewrite run_app.
  destruct (early_ticks c granted early s1 now0 tt Ht1 Hearly) as (Ht2 & _ & Htar2 & Hc2).
  set (s2 := fst (run c granted (map Tick early) s1)) in *.
  rewrite Hc2. rewrite run_cons. cbn [step fst snd].
  rewrite (completing_tick c granted now s2 now0 tt Ht2 Hnow). cbn [fst snd].
  rewrite cleared_ticks by reflexivity. cbn [fst snd].
  cbn [status targetSec remainingSec elapsedSec timerRef].
  rewrite app_nil_r, Htar2, Htar1.
  repeat (split; [reflexivity|]).
  destruct (PageProps.perform_all_totals k
              ([primeAudio] ++ [] ++ onAdd c tt :: beepTriple :: notify c granted)%list
              (page, ls)) as [HL HR].
  assert (0 <= tt) by (unfold tt; lia).
  destruct c; [rewrite HL | rewrite HR]; cbn [fst]; destruct granted; simpl; lia.
Qed.

(** The 25-minute learning session of the specification: 5999 firings
    before the 1500th second, the firing at 1500 s, and four firings
    that would follow.  The card is [Done], the Learning total is up by
    1500, one beep and one notification were issued. *)
Lemma countdown_25_minutes :
  forallb (fun n => (n - 0) / 1000 <? Z.max 1 (Qfloor (minutes (initial LearningCard))) * 60)
    (firing_times 0 (Z.to_nat 5999)) = true /\
  Z.max 1 (Qfloor (minutes (initial LearningCard))) * 60 <= (1500000 - 0) / 1000 /\
  status (fst (run LearningCard true
    (Start 0 :: map Tick (firing_times 0 (Z.to_nat 5999)) ++ Tick 1500000
               :: map Tick (firing_times 1500000 4))
    (initial LearningCard))) = Done /\
  targetSec (fst (run LearningCard true
    (Start 0 :: map Tick (firing_times 0 (Z.to_nat 5999)) ++ Tick 1500000
               :: map Tick (firing_times 1500000 4))
    (initial LearningCard))) = 1500 /\
  snd (run LearningCard true
    (Start 0 :: map Tick (firing_times 0 (Z.to_nat 5999)) ++ Tick 1500000
               :: map Tick (firing_times 1500000 4))
    (initial LearningCard))
    = [primeAudio; onAddLearn 1500; beepTriple; newNotification] /\
  Page.totalLearnSec (fst (Page.perform_all (Page.keys "")
    (snd (run LearningCard true
      (Start 0 :: map Tick (firing_times 0 (Z.to_nat 5999)) ++ Tick 1500000
                 :: map Tick (firing_times 1500000 4))
      (initial LearningCard)))
    (Page.initial, None)))
    = Page.totalLearnSec Page.initial + 1500.
Proof.
  assert (forallb (fun n => (n - 0) / 1000 <?
                            Z.max 1 (Qfloor (minutes (initial LearningCard))) * 60)
            (firing_times 0 (Z.to_nat 5999)) = true) as H1 by (vm_compute; reflexivity).
  assert (Z.max 1 (Qfloor (minutes (initial LearningCard))) * 60 <= (1500000 - 0) / 1000)
    as H2 by (vm_compute; discriminate).
  split; [exact H1|]. split; [exact H2|].
  destruct (countdown_reaches_zero LearningCard true (initial LearningCard) 0
              (firing_times 0 (Z.to_nat 5999)) 1500000 (firing_times 1500000 4)
              (Page.keys "") Page.initial None H1 H2)
    as (A & B & _ & _ & _ & C & D).
  split; [exact A|]. split; [exact B|]. split; [exact C|]. exact D.
Defined.

(** *** [stop] *)

(** C7: from [Running], [stop] moves the card to [Paused], clears the
    interval (no later firing changes or calls anything), leaves every
    other field alone and calls the category's add with the measured
    elapsed seconds, so the total grows by exactly the elapsed seconds
    (which are non-negative as long as the clock did not go back); from
    any other state [stop] changes nothing and calls nothing. *)
Theorem stop_credits_elapsed (c : card) (s : State) :
  (status s = Running ->
   stop c s =
     ({| minutes := minutes s; status := Paused; startedAt := startedAt s;
         targetSec := targetSec s; elapsedSec := elapsedSec s;
         remainingSec := remainingSec s; timerRef := None |},
      [onAdd c (elapsedSec s)]) /\
   (forall granted now,
       tick c granted now (fst (stop c s)) = (fst (stop c s), [])) /\
   (forall k page ls,
       0 <= elapsedSec s ->
       match c with
       | LearningCard =>
           Page.totalLearnSec (fst (Page.perform_all k (snd (stop c s)) (page, ls)))
             = Page.totalLearnSec page + elapsedSec s /\
           Page.totalRestSec (fst (Page.perform_all k (snd (stop c s)) (page, ls)))
             = Page.totalRestSec page
       | PlainRestPanel =>
           Page.totalRestSec (fst (Page.perform_all k (snd (stop c s)) (page, ls)))
             = Page.totalRestSec page + elapsedSec s /\
           Page.totalLearnSec (fst (Page.perform_all k (snd (stop c s)) (page, ls)))
             = Page.totalLearnSec page
       end)) /\
  (status s <> Running -> stop c s = (s, [])).
Proof.
  split.
  - intros E. unfold stop. rewrite E. split; [reflexivity|]. split.
    + intros granted now. reflexivity.
    + intros k page ls Hel. cbn [snd].
      destruct (PageProps.perform_all_totals k [onAdd c (elapsedSec s)] (page, ls))
        as [HL HR].
      rewrite HL, HR. destruct c; cbn; lia.
  - intros E. unfold stop. destruct (status s); congruence.
Qed.

(** A learning session stopped after 90 s credits 90 s, not 1500. *)
Example stop_after_90_seconds :
  snd (run LearningCard true [Start 0; Tick 45000; Tick 90250; Stop; Tick 90500; Stop]
         (initial LearningCard))
  = [primeAudio; onAddLearn 90] /\
  status (fst (run LearningCard true [Start 0; Tick 45000; Tick 90250; Stop; Tick 90500; Stop]
                 (initial LearningCard))) = Paused.
Proof. split; reflexivity. Qed.

End CountdownProps.

(** ** The player-driven engine *)

Module YouTubeProps.
Import YouTubeRestPanel YouTubeSpec.

Lemma rest_adds_app cs1 cs2 :
  rest_adds (cs1 ++ cs2)%list = (rest_adds cs1 + rest_adds cs2)%nat.
Proof. induction cs1 as [|[] cs1 IH]; simpl; lia. Qed.

Lemma no_rest_adds_no_credit cs :
  rest_adds cs = O -> PageSpec.rest_credit cs = 0.
Proof. induction cs as [|[] cs IH]; simpl; auto; discriminate. Qed.

Ltac branches :=
  repeat match goal with
         | |- context [if ?b then _ else _] => destruct b eqn:?
         end.

Lemma tickOnce_counted r s : countedRef (tickOnce r s) = countedRef s.
Proof. unfold tickOnce. branches; reflexivity. Qed.

Lemma handleEndedCount_latches r s :
  countedRef (fst (handleEndedCount r s)) = true /\
  (rest_adds (snd (handleEndedCount r s)) <= 1)%nat /\
  (countedRef s = true -> handleEndedCount r s = (s, [])).
Proof.
  unfold handleEndedCount. destruct (countedRef s) eqn:E; cbn [fst snd].
  - auto.
  - split; [reflexivity|]. split; [|discriminate]. branches; simpl; lia.
Qed.

Lemma stopRestYoutube_latches s :
  (playerRef s = true -> countedRef (fst (stopRestYoutube s)) = true) /\
  (rest_adds (snd (stopRestYoutube s)) <= 1)%nat /\
  (countedRef s = true ->
   countedRef (fst (stopRestYoutube s)) = true /\
   rest_adds (snd (stopRestYoutube s)) = O).
Proof.
  unfold stopRestYoutube.
  destruct (playerRef s) eqn:Ep, (countedRef s) eqn:Ec; cbn [fst snd countedRef];
    branches; simpl; repeat split; intros;
    try reflexivity; try lia; try discriminate; auto.
Qed.

(** A step that calls nothing and keeps the latch. *)
Lemma quiet_step (s s' : State) :
  countedRef s' = countedRef s ->
  (rest_adds [] <= 1)%nat /\
  (countedRef s = true -> countedRef s' = true /\ rest_adds [] = O) /\
  (rest_adds [] = 1%nat -> countedRef s' = true).
Proof.
  intros ->. cbn [rest_adds]. split; [lia|]. split; [auto | discriminate].
Qed.

Lemma ended_step r (s s' : State) :
  countedRef s' = countedRef s ->
  (rest_adds (snd (handleEndedCount r s')) <= 1)%nat /\
  (countedRef s = true ->
   countedRef (fst (handleEndedCount r s')) = true /\
   rest_adds (snd (handleEndedCount r s')) = O) /\
  (rest_adds (snd (handleEndedCount r s')) = 1%nat ->
   countedRef (fst (handleEndedCount r s')) = true).
Proof.
  intros <-. destruct (handleEndedCount_latches r s') as (A & B & C).
  split; [exact B|]. split; [|intros _; exact A].
  intros H. rewrite (C H). auto.
Qed.

(** One event of a session: at most one credit; with the latch set,
    none, and the latch stays set; a credit sets the latch. *)
Lemma step_credit new_URL e s :
  in_session e = true ->
  (rest_adds (snd (step new_URL e s)) <= 1)%nat /\
  (countedRef s = true ->
   countedRef (fst (step new_URL e s)) = true /\
   rest_adds (snd (step new_URL e s)) = O) /\
  (rest_adds (snd (step new_URL e s)) = 1%nat ->
   countedRef (fst (step new_URL e s)) = true).
Proof.
  intros He. destruct e; try discriminate He; cbn [step fst snd].
  - apply quiet_step. reflexivity.
  - destruct (stopRestYoutube_latches s) as (A & B & C).
    split; [exact B|]. split; [exact C|].
    intros H. apply A. unfold stopRestYoutube in H.
    destruct (playerRef s); [reflexivity | discriminate H].
  - apply quiet_step. destruct (tickRef s); [apply tickOnce_counted | reflexivity].
  - apply quiet_step. unfold onReady. rewrite tickOnce_counted. reflexivity.
  - apply quiet_step. unfold onPlay. cbn [startTick countedRef].
    rewrite tickOnce_counted. reflexivity.
  - apply quiet_step. unfold onPause. rewrite tickOnce_counted. reflexivity.
  - unfold onEnd. apply ended_step. reflexivity.
  - apply quiet_step. reflexivity.
  - unfold onStateChange.
    destruct (data =? 1); [apply quiet_step; reflexivity|].
    destruct (data =? 2); [apply quiet_step; reflexivity|].
    destruct (data =? 0); [apply ended_step; reflexivity | apply quiet_step; reflexivity].
Qed.

Lemma panel_run_cons new_URL e es s :
  run new_URL (e :: es) s =
  (fst (run new_URL es (fst (step new_URL e s))),
   (snd (step new_URL e s) ++ snd (run new_URL es (fst (step new_URL e s))))%list).
Proof.
  simpl. destruct (step new_URL e s) as [s1 cs1]. cbn [fst snd].
  destruct (run new_URL es s1) as [s2 cs2]. reflexivity.
Qed.

Lemma run_latched new_URL es s :
  forallb in_session es = true ->
  countedRef s = true ->
  countedRef (fst (run new_URL es s)) = true /\
  rest_adds (snd (run new_URL es s)) = O.
Proof.
  revert s. induction es as [|e es IH]; intros s Hes Hc; [auto|].
  cbn [forallb] in Hes. apply andb_true_iff in Hes as [He Hes].
  rewrite panel_run_cons. cbn [fst snd]. rewrite rest_adds_app.
  destruct (step_credit new_URL e s He) as (_ & A & _).
  destruct (A Hc) as [A1 A2].
  destruct (IH _ Hes A1) as [B1 B2]. split; [exact B1 | lia].
Qed.

Lemma run_at_most_once new_URL es s :
  forallb in_session es = true ->
  (rest_adds (snd (run new_URL es s)) <= 1)%nat.
Proof.
  revert s. induction es as [|e es IH]; intros s Hes; [simpl; lia|].
  cbn [forallb] in Hes. apply andb_true_iff in Hes as [He Hes].
  rewrite panel_run_cons. cbn [fst snd]. rewrite rest_adds_app.
  destruct (step_credit new_URL e s He) as (A & _ & C).
  destruct (rest_adds (snd (step new_URL e s))) as [|[|n]] eqn:E; [| |lia].
  - specialize (IH (fst (step new_URL e s)) Hes). lia.
  - destruct (run_latched new_URL es _ Hes (C eq_refl)) as [_ B]. lia.
Qed.

(** *** The scenario of the specification *)

(** C1: within a session (any events but a new start) the Rest add is
    called at most once, and not at all once the latch is set, so the
    Rest total then stays as it is; each terminal handler that runs sets
    the latch; a terminal handler called right after another one calls
    no add.  In the scenario (duration 212, stop at position 50) the
    stop credits exactly 50, sets the latch, and the natural-end signals
    that follow add nothing. *)
Theorem credited_at_most_once :
  (forall new_URL es s,
      forallb in_session es = true ->
      (rest_adds (snd (run new_URL es s)) <= 1)%nat /\
      (countedRef s = true ->
       rest_adds (snd (run new_URL es s)) = O /\
       countedRef (fst (run new_URL es s)) = true /\
       forall k page ls,
         Page.totalRestSec (fst (Page.perform_all k (snd (run new_URL es s)) (page, ls)))
         = Page.totalRestSec page)) /\
  (forall r s,
      countedRef (fst (onEnd r s)) = true /\
      countedRef (fst (onStateChange 0 r s)) = true /\
      (playerRef s = true -> countedRef (fst (stopRestYoutube s)) = true)) /\
  (forall r r' s,
      handleEndedCount r' (fst (handleEndedCount r s)) = (fst (handleEndedCount r s), []) /\
      snd (onEnd r' (fst (onEnd r s))) = [] /\
      snd (onStateChange 0 r' (fst (onEnd r s))) = [] /\
      snd (onEnd r' (fst (onStateChange 0 r s))) = [] /\
      rest_adds (snd (stopRestYoutube (fst (onEnd r s)))) = O /\
      (playerRef s = true -> snd (onEnd r' (fst (stopRestYoutube s))) = [])) /\
  (videoId watching_50_of_212 = Some "dQw4w9WgXcQ" /\
   durationSec watching_50_of_212 = 212 /\
   remainingSec watching_50_of_212 = 162 /\
   countedRef watching_50_of_212 = false /\
   snd (stopRestYoutube watching_50_of_212) = [onAddRest 50; stopVideo] /\
   countedRef (fst (stopRestYoutube watching_50_of_212)) = true /\
   snd (onEnd (reading 212 212) (fst (stopRestYoutube watching_50_of_212))) = [] /\
   snd (onStateChange 0 (reading 212 212) (fst (stopRestYoutube watching_50_of_212))) = [] /\
   forall k page ls,
     Page.totalRestSec
       (fst (Page.perform_all k
               (snd (run Resolver.plain_URL
                       [StopRest; End_ (reading 212 212); StateChange 0 (reading 212 212)]
                       watching_50_of_212))
               (page, ls)))
     = Page.totalRestSec page + 50).
Proof.
  split; [|split; [|split]].
  - intros new_URL es s Hes. split; [apply run_at_most_once; exact Hes|].
    intros Hc. destruct (run_latched new_URL es s Hes Hc) as [A B].
    split; [exact B|]. split; [exact A|]. intros k page ls.
    destruct (PageProps.perform_all_totals k (snd (run new_URL es s)) (page, ls)) as [_ H].
    rewrite H, (no_rest_adds_no_credit _ B). cbn [fst]. lia.
  - intros r s. split; [|split].
    + unfold onEnd. apply handleEndedCount_latches.
    + unfold onStateChange. cbn. apply handleEndedCount_latches.
    + apply stopRestYoutube_latches.
  - intros r r' s.
    assert (forall r0 s0, countedRef s0 = true -> snd (onEnd r0 s0) = []) as Hend.
    { intros r0 s0 H0. unfold onEnd.
      destruct (handleEndedCount_latches r0 (setRemainingSec 0 (clearTick (setStatus Ended s0))))
        as (_ & _ & C).
      rewrite C by exact H0. reflexivity. }
    assert (countedRef (fst (onEnd r s)) = true) as He
      by (unfold onEnd; apply handleEndedCount_latches).
    split; [|split; [|split; [|split; [|split]]]].
    + destruct (handleEndedCount_latches r' (fst (handleEndedCount r s))) as (_ & _ & C).
      apply C. apply handleEndedCount_latches.
    + apply Hend, He.
    + change (onStateChange 0 r' (fst (onEnd r s))) with (onEnd r' (fst (onEnd r s))).
      apply Hend, He.
    + apply Hend. change (onStateChange 0 r s) with (onEnd r s). exact He.
    + destruct (stopRestYoutube_latches (fst (onEnd r s))) as (_ & _ & C).
      apply C, He.
    + intros Hp. destruct (stopRestYoutube_latches s) as (A & _ & _).
      apply Hend, A, Hp.
  - repeat (split; [vm_compute; reflexivity|]).
    intros k page ls.
    destruct (PageProps.perform_all_totals k
                (snd (run Resolver.plain_URL
                        [StopRest; End_ (reading 212 212); StateChange 0 (reading 212 212)]
                        watching_50_of_212)) (page, ls)) as [_ H].
    rewrite H. cbn [fst]. f_equal.
Qed.

(** *** A rejected start *)

(** C10, as stated, fails: a rejected start also cancels the position
    poll of the session that is playing, so more than the status and the
    message change. *)
Lemma rejected_start_cancels_poll :
  Resolver.extractYouTubeVideoId Resolver.plain_URL (input playing_with_bad_input) = None /\
  tickRef playing_with_bad_input = true /\
  tickRef (startRestYoutube Resolver.plain_URL playing_with_bad_input) = false /\
  startRestYoutube Resolver.plain_URL playing_with_bad_input
    <> setErrorMsg invalid_message (setStatus Error playing_with_bad_input).
Proof.
  split; [vm_compute; reflexivity|]. split; [vm_compute; reflexivity|].
  split; [vm_compute; reflexivity|].
  intros H. apply (f_equal tickRef) in H. vm_compute in H. discriminate H.
Qed.

(** C10, amended: a start that the resolver rejects sets the status to
    [Error] and the message to the validation message, cancels the
    position poll, and changes nothing else: the mounted video id, the
    duration, the remaining time, the credited latch, the player handle
    and the input keep their values. *)
Theorem rejected_start_frame (new_URL : string -> option Resolver.URL) (s : State) :
  Resolver.extractYouTubeVideoId new_URL (input s) = None ->
  startRestYoutube new_URL s =
    {| input := input s; status := Error; videoId := videoId s;
       durationSec := durationSec s; remainingSec := remainingSec s;
       errorMsg := invalid_message; playerRef := playerRef s;
       tickRef := false; countedRef := countedRef s |}.
Proof. intros H. unfold startRestYoutube. rewrite H. reflexivity. Qed.

Lemma rejected_start_frame_playing :
  Resolver.extractYouTubeVideoId Resolver.plain_URL (input playing_with_bad_input) = None /\
  startRestYoutube Resolver.plain_URL playing_with_bad_input =
    {| input := "not a url"; status := Error; videoId := Some "dQw4w9WgXcQ";
       durationSec := 212; remainingSec := 162;
       errorMsg := invalid_message; playerRef := true;
       tickRef := false; countedRef := false |}.
Proof.
  assert (Resolver.extractYouTubeVideoId Resolver.plain_URL (input playing_with_bad_input)
          = None) as H by (vm_compute; reflexivity).
  split; [exact H|].
  rewrite (rejected_start_frame Resolver.plain_URL playing_with_bad_input H).
  vm_compute. reflexivity.
Defined.

End YouTubeProps.

(** * Further properties of the code *)

(** ** Strings *)

Module StringFacts.
Import JsString Resolver.

Lemma all_chars_app p a b :
  all_chars p (a ++ b)%string = all_chars p a && all_chars p b.
Proof.
  unfold all_chars. induction a as [|c a IH]; simpl; [reflexivity|].
  rewrite IH, andb_assoc. reflexivity.
Qed.

Lemma all_chars_weaken (p q : ascii -> bool) s :
  (forall c, p c = true -> q c = true) ->
  all_chars p s = true -> all_chars q s = true.
Proof.
  intros Hpq. unfold all_chars. induction s as [|c s IH]; simpl; [reflexivity|].
  intros H. apply andb_true_iff in H as [H1 H2]. rewrite (Hpq c H1), IH by exact H2.
  reflexivity.
Qed.

Lemma length_app (a b : string) :
  String.length (a ++ b)%string = (String.length a + String.length b)%nat.
Proof. induction a as [|c a IH]; simpl; [reflexivity | rewrite IH; reflexivity]. Qed.

Lemma break_at_none p s :
  all_chars (fun c => negb (p c)) s = true -> break_at p s = (s, EmptyString).
Proof.
  unfold all_chars. induction s as [|c s IH]; simpl; [reflexivity|].
  intros H. apply andb_true_iff in H as [H1 H2].
  apply negb_true_iff in H1. rewrite H1, IH by exact H2. reflexivity.
Qed.

Lemma split_none sep s :
  all_chars (fun c => negb (Ascii.eqb c sep)) s = true -> split sep s = [s].
Proof.
  unfold all_chars. induction s as [|c s IH]; simpl; [reflexivity|].
  intros H. apply andb_true_iff in H as [H1 H2].
  apply negb_true_iff in H1. rewrite H1, IH by exact H2. reflexivity.
Qed.

Lemma split_app sep a b :
  all_chars (fun c => negb (Ascii.eqb c sep)) a = true ->
  split sep (a ++ String sep b)%string = a :: split sep b.
Proof.
  unfold all_chars. induction a as [|c a IH]; simpl.
  - intros _. rewrite Ascii.eqb_refl. reflexivity.
  - intros H. apply andb_true_iff in H as [H1 H2].
    apply negb_true_iff in H1. rewrite H1, IH by exact H2. reflexivity.
Qed.

Lemma trimStart_white l x :
  all_chars is_white l = true -> trimStart (l ++ x)%string = trimStart x.
Proof.
  unfold all_chars. induction l as [|c l IH]; simpl; [reflexivity|].
  intros H. apply andb_true_iff in H as [H1 H2]. rewrite H1. apply IH, H2.
Qed.

Lemma trimEnd_white r :
  all_chars is_white r = true -> trimEnd r = EmptyString.
Proof.
  unfold all_chars. induction r as [|c r IH]; simpl; [reflexivity|].
  intros H. apply andb_true_iff in H as [H1 H2]. rewrite IH, H1 by exact H2. reflexivity.
Qed.

Lemma trimEnd_app_white x r :
  all_chars is_white r = true -> trimEnd (x ++ r)%string = trimEnd x.
Proof.
  intros Hr. induction x as [|c x IH]; simpl.
  - apply trimEnd_white, Hr.
  - rewrite IH. reflexivity.
Qed.

Lemma trimStart_app x r :
  trimStart (x ++ r)%string =
  match trimStart x with
  | EmptyString => trimStart r
  | String _ _ => (trimStart x ++ r)%string
  end.
Proof.
  induction x as [|c x IH]; simpl; [reflexivity|].
  destruct (is_white c); [exact IH | reflexivity].
Qed.

Lemma append_empty (s : string) : (s ++ "")%string = s.
Proof.
  induction s as [|c s IH]; [reflexivity|].
  change (String c s ++ "")%string with (String c (s ++ "")). rewrite IH. reflexivity.
Qed.

(** White space around a text does not survive [trim]. *)
Lemma trim_surrounded l x r :
  all_chars is_white l = true -> all_chars is_white r = true ->
  trim (l ++ x ++ r)%string = trim x.
Proof.
  intros Hl Hr. unfold trim. rewrite trimStart_white by exact Hl.
  rewrite trimStart_app. destruct (trimStart x) as [|c y] eqn:E.
  - assert (trimStart r = EmptyString) as ->.
    { pose proof (trimStart_white r EmptyString Hr) as H.
      rewrite append_empty in H. exact H. }
    reflexivity.
  - apply trimEnd_app_white, Hr.
Qed.

End StringFacts.

Module ResolverExtra.
Import JsString Resolver ResolverSpec StringFacts.

Lemma id_char_not_white c : id_char c = true -> is_white c = false.
Proof.
  destruct c as [[] [] [] [] [] [] [] []]; intros H; try reflexivity; discriminate H.
Qed.

Lemma id_char_differs x c : id_char x = false -> id_char c = true -> Ascii.eqb c x = false.
Proof.
  intros Hx Hc. destruct (Ascii.eqb_spec c x) as [->|]; [congruence | reflexivity].
Qed.

Lemma trim_fixed s : all_chars (fun c => negb (is_white c)) s = true -> trim s = s.
Proof.
  intros H. unfold trim.
  assert (trimStart s = s) as ->.
  { destruct s as [|c s]; [reflexivity|]. unfold all_chars in H. simpl in H.
    apply andb_true_iff in H as [H _]. apply negb_true_iff in H. simpl. rewrite H. reflexivity. }
  unfold all_chars in H. induction s as [|c s IH]; [reflexivity|].
  simpl in H. apply andb_true_iff in H as [H1 H2]. apply negb_true_iff in H1.
  simpl. rewrite (IH H2). destruct s; [rewrite H1|]; reflexivity.
Qed.

Section CanonicalForms.

Variable id : string.
Hypothesis Hid : is_video_id id = true.

Lemma id_chars : all_chars id_char id = true.
Proof. unfold is_video_id in Hid. apply andb_true_iff in Hid as [_ H]. exact H. Qed.

Lemma id_length : String.length id = 11%nat.
Proof. unfold is_video_id in Hid. apply andb_true_iff in Hid as [H _]. apply Nat.eqb_eq, H. Qed.

Lemma id_all (q : ascii -> bool) :
  (forall c, id_char c = true -> q c = true) -> all_chars q id = true.
Proof. intros H. apply (all_chars_weaken id_char q id H id_chars). Qed.

Lemma id_avoids x : id_char x = false -> all_chars (fun c => negb (Ascii.eqb c x)) id = true.
Proof.
  intros Hx. apply id_all. intros c Hc. rewrite (id_char_differs x c Hx Hc). reflexivity.
Qed.

Lemma long_is_not_id (pre : string) :
  String.length pre <> 0%nat -> is_video_id (pre ++ id) = false.
Proof.
  intros H. unfold is_video_id. rewrite length_app, id_length.
  destruct (String.length pre) as [|n]; [congruence|]. 
  replace (S n + 11 =? 11)%nat with false; [reflexivity|].
  symmetry. apply Nat.eqb_neq. lia.
Qed.

Lemma url_trim (pre : string) :
  all_chars (fun c => negb (is_white c)) pre = true -> trim (pre ++ id) = (pre ++ id)%string.
Proof.
  intros H. apply trim_fixed. rewrite all_chars_app, H. simpl.
  apply id_all. intros c Hc. rewrite (id_char_not_white c Hc). reflexivity.
Qed.

Ltac id_side :=
  apply id_all; intros c Hc; unfold is_char;
  rewrite ?Hc, ?(id_char_not_white c Hc);
  rewrite ?id_char_differs by first [exact eq_refl | assumption];
  reflexivity.

Lemma id_break p :
  (forall c, id_char c = true -> p c = false) -> break_at p id = (id, EmptyString).
Proof.
  intros H. apply break_at_none, id_all. intros c Hc. rewrite (H c Hc). reflexivity.
Qed.

Lemma id_split x : id_char x = false -> split x id = [id].
Proof. intros Hx. apply split_none, id_avoids, Hx. Qed.

Lemma id_truthy : truthy id = true.
Proof. destruct id; [discriminate Hid | reflexivity]. Qed.

Lemma id_valid : valid_id (Some id) = Some id.
Proof. unfold valid_id. rewrite id_truthy, Hid. reflexivity. Qed.

Lemma id_forallb (q : ascii -> bool) :
  (forall c, id_char c = true -> q c = true) ->
  forallb q (list_ascii_of_string id) = true.
Proof. apply id_all. Qed.

Ltac char_side :=
  intros c Hc; unfold is_char;
  rewrite ?Hc, ?id_char_differs by first [exact eq_refl | assumption];
  reflexivity.

Ltac eval_id_char :=
  repeat match goal with
         | |- context [id_char (Ascii ?a ?b ?c ?d ?e ?f ?g ?h)] =>
             let v := eval vm_compute in (id_char (Ascii a b c d e f g h)) in
             change (id_char (Ascii a b c d e f g h)) with v
         end.

Ltac parse_url :=
  unfold resolve, extractYouTubeVideoId;
  rewrite url_trim by reflexivity;
  rewrite long_is_not_id by discriminate;
  unfold plain_URL; cbv beta iota fix delta [String.append]; cbn;
  repeat (rewrite id_break by char_side; cbn);
  repeat (rewrite id_forallb by char_side);
  repeat match goal with |- context [plain_host ?h] => change (plain_host h) with true end;
  eval_id_char; rewrite ?orb_true_r; cbn;
  repeat (rewrite ?id_split by reflexivity; rewrite ?id_truthy, ?Hid; cbn).

Lemma short_form : resolve ("https://youtu.be/" ++ id) = Some id.
Proof. parse_url. reflexivity. Qed.

Lemma watch_form : resolve ("https://www.youtube.com/watch?v=" ++ id) = Some id.
Proof. parse_url. reflexivity. Qed.

Lemma embed_form : resolve ("https://www.youtube.com/embed/" ++ id) = Some id.
Proof. parse_url. reflexivity. Qed.

Lemma id_is_not_embed : segment_after "embed" ["shorts"; id] = None.
Proof.
  unfold segment_after. cbn [indexOf].
  replace (String.eqb "shorts" "embed") with false by reflexivity.
  destruct (String.eqb_spec id "embed") as [E|_]; [|reflexivity].
  rewrite E in Hid. discriminate Hid.
Qed.

Lemma shorts_form : resolve ("https://www.youtube.com/shorts/" ++ id) = Some id.
Proof. parse_url. rewrite id_is_not_embed. reflexivity. Qed.

Lemma bare_form : resolve id = Some id.
Proof.
  unfold resolve, extractYouTubeVideoId.
  pose proof (url_trim EmptyString eq_refl) as H.
  change (EmptyString ++ id)%string with id in H. rewrite H, Hid. reflexivity.
Qed.

End CanonicalForms.

(** X1: for every well-formed video id, the bare id and its short-link,
    watch, embed and shorts addresses all resolve to that id (the URL
    object being the one [plain_URL] reads). *)
Theorem canonical_references_resolve (id : string) :
  is_video_id id = true ->
  resolve id = Some id /\
  resolve ("https://youtu.be/" ++ id) = Some id /\
  resolve ("https://www.youtube.com/watch?v=" ++ id) = Some id /\
  resolve ("https://www.youtube.com/embed/" ++ id) = Some id /\
  resolve ("https://www.youtube.com/shorts/" ++ id) = Some id.
Proof.
  intros Hid. split; [apply bare_form, Hid|].
  split; [apply short_form, Hid|]. split; [apply watch_form, Hid|].
  split; [apply embed_form, Hid | apply shorts_form, Hid].
Qed.

Lemma canonical_references_resolve_sample :
  is_video_id "a1B2c3D4-_z" = true /\
  resolve ("https://www.youtube.com/shorts/" ++ "a1B2c3D4-_z") = Some "a1B2c3D4-_z".
Proof.
  split; [reflexivity|].
  apply (canonical_references_resolve "a1B2c3D4-_z" eq_refl).
Defined.

(** X2: white space around the input never changes the answer of the
    resolver, whatever the URL constructor does. *)
Theorem surrounding_white_space_ignored
    (new_URL : string -> option URL) (l r input : string) :
  all_chars is_white l = true ->
  all_chars is_white r = true ->
  extractYouTubeVideoId new_URL (l ++ input ++ r) = extractYouTubeVideoId new_URL input.
Proof.
  intros Hl Hr. unfold extractYouTubeVideoId.
  rewrite (trim_surrounded l input r Hl Hr). reflexivity.
Qed.

Lemma surrounding_white_space_ignored_sample :
  all_chars is_white "  " = true /\
  all_chars is_white (String (ascii_of_nat 9) (String (ascii_of_nat 10) "")) = true /\
  extractYouTubeVideoId plain_URL
    ("  " ++ "https://youtu.be/dQw4w9WgXcQ"
          ++ String (ascii_of_nat 9) (String (ascii_of_nat 10) ""))
  = extractYouTubeVideoId plain_URL "https://youtu.be/dQw4w9WgXcQ".
Proof.
  split; [reflexivity|]. split; [reflexivity|].
  apply (surrounding_white_space_ignored plain_URL "  "
           (String (ascii_of_nat 9) (String (ascii_of_nat 10) ""))
           "https://youtu.be/dQw4w9WgXcQ" eq_refl eq_refl).
Defined.

End ResolverExtra.

(** ** Clock texts, day keys and the store *)

Module PageExtra.
Import JsString Page PageSpec StringFacts.

Lemma uint_digits u : Resolver.all_chars digit (NilEmpty.string_of_uint u) = true.
Proof. induction u; simpl; try reflexivity; exact IHu. Qed.

(** A non-negative integer prints as digits only. *)
Lemma String_digits n : 0 <= n -> Resolver.all_chars digit (String_ n) = true.
Proof.
  intros Hn. unfold String_. destruct n as [|p|p]; [reflexivity | | lia].
  simpl. apply uint_digits.
Qed.

Lemma pad2_digits n : 0 <= n -> Resolver.all_chars digit (pad2 n) = true.
Proof.
  intros Hn. unfold pad2. destruct (String.length (String_ n) <? 2)%nat.
  - change ("0" ++ String_ n)%string with (String "0" (String_ n)).
    unfold Resolver.all_chars. simpl. apply String_digits, Hn.
  - apply String_digits, Hn.
Qed.

(** A leading zero does not change what is read back. *)
Lemma Number_pad2 n : 0 <= n -> Number_ (pad2 n) = Some n.
Proof.
  intros Hn. unfold pad2. destruct (String.length (String_ n) <? 2)%nat;
    [|apply PageProps.Number_String_].
  pose proof (DecimalZ.of_to n) as Hback.
  unfold Number_, String_. destruct n as [|p|p]; [reflexivity | | lia].
  simpl Z.to_int in *. simpl NilEmpty.string_of_int.
  change ("0" ++ NilEmpty.string_of_uint (Pos.to_uint p))%string
    with (String "0" (NilEmpty.string_of_uint (Pos.to_uint p))).
  unfold NilEmpty.int_of_string. simpl Ascii.eqb. cbv iota.
  simpl NilEmpty.uint_of_string. rewrite NilEmpty.usu. simpl.
  simpl in Hback. f_equal. exact Hback.
Qed.

Lemma digits_avoid x s :
  digit x = false -> Resolver.all_chars digit s = true ->
  Resolver.all_chars (fun c => negb (Ascii.eqb c x)) s = true.
Proof.
  intros Hx. apply all_chars_weaken. intros c Hc.
  destruct (Ascii.eqb_spec c x) as [->|]; [congruence | reflexivity].
Qed.

Lemma append_inv_tail (a b t : string) : (a ++ t = b ++ t)%string -> a = b.
Proof.
  revert b. induction a as [|c a IH]; intros [|c' b] E.
  - reflexivity.
  - exfalso. apply (f_equal String.length) in E.
    rewrite !length_app in E. simpl in E. lia.
  - exfalso. apply (f_equal String.length) in E.
    rewrite !length_app in E. simpl in E. lia.
  - change (String c (a ++ t) = String c' (b ++ t))%string in E.
    injection E as -> E. f_equal. apply IH, E.
Qed.

Lemma pad2_length n : 0 <= n <= 99 -> String.length (pad2 n) = 2%nat.
Proof.
  intros Hn.
  assert (forallb (fun k => (String.length (pad2 (Z.of_nat k)) =? 2)%nat) (seq 0 100) = true)
    as Hall by (vm_compute; reflexivity).
  rewrite forallb_forall in Hall.
  specialize (Hall (Z.to_nat n)). rewrite Z2Nat.id in Hall by lia.
  apply Nat.eqb_eq, Hall, in_seq. lia.
Qed.

Lemma split_two sep a b :
  digit sep = false ->
  Resolver.all_chars digit a = true -> Resolver.all_chars digit b = true ->
  split sep (a ++ String sep b)%string = [a; b].
Proof.
  intros Hsep Ha Hb.
  rewrite split_app by (apply digits_avoid; assumption).
  rewrite split_none by (apply digits_avoid; assumption). reflexivity.
Qed.

(** X3: the clock text of [formatMMSS] reads back as the clamped whole
    seconds, so two different second counts are never shown as the same
    text; the seconds field is below 60; below 100 minutes the text has
    exactly five characters; negative arguments show as zero. *)
Theorem formatMMSS_reads_back (x y : Q) :
  parseMMSS (formatMMSS x) = Some (Z.max 0 (Qfloor x)) /\
  (formatMMSS x = formatMMSS y -> Z.max 0 (Qfloor x) = Z.max 0 (Qfloor y)) /\
  formatMMSS x =
    (pad2 (Z.max 0 (Qfloor x) / 60) ++ ":" ++ pad2 (Z.max 0 (Qfloor x) mod 60))%string /\
  0 <= Z.max 0 (Qfloor x) mod 60 < 60 /\
  (Z.max 0 (Qfloor x) < 6000 -> String.length (formatMMSS x) = 5%nat) /\
  (Qfloor x <= 0 -> formatMMSS x = "00:00").
Proof.
  assert (forall z : Q, parseMMSS (formatMMSS z) = Some (Z.max 0 (Qfloor z))) as Hback.
  { intros z. unfold parseMMSS, formatMMSS. cbv zeta.
    set (s := Z.max 0 (Qfloor z)).
    assert (0 <= s / 60) by (apply Z.div_pos; lia).
    assert (0 <= s mod 60 < 60) by (apply Z.mod_pos_bound; lia).
    change (pad2 (s / 60) ++ ":" ++ pad2 (s mod 60))%string
      with (pad2 (s / 60) ++ String ":" (pad2 (s mod 60)))%string.
    rewrite split_two by (try reflexivity; apply pad2_digits; lia).
    rewrite !Number_pad2 by lia. f_equal.
    pose proof (Z_div_mod_eq_full s 60). lia. }
  split; [apply Hback|]. split; [|split; [reflexivity|split; [|split]]].
  - intros E. pose proof (Hback x) as Hx. rewrite E, Hback in Hx. congruence.
  - apply Z.mod_pos_bound. lia.
  - intros Hlt. unfold formatMMSS. cbv zeta.
    set (s := Z.max 0 (Qfloor x)) in *.
    assert (0 <= s / 60 <= 99).
    { split; [apply Z.div_pos; lia|].
      assert (s / 60 < 100) by (apply Z.div_lt_upper_bound; lia). lia. }
    assert (0 <= s mod 60 <= 99) by (pose proof (Z.mod_pos_bound s 60); lia).
    rewrite !length_app, !pad2_length by assumption. reflexivity.
  - intros Hle. unfold formatMMSS. replace (Z.max 0 (Qfloor x)) with 0 by lia.
    reflexivity.
Qed.

(** X4: a day key reads back as the date it was printed from, so two
    different calendar dates never share a key (nor a counter key); with
    a four-digit year the key has the ten characters of [YYYY-MM-DD]. *)
Theorem dayKey_reads_back (d1 d2 : Date) :
  calendar_date d1 = true ->
  calendar_date d2 = true ->
  parseDayKey (dayKey d1) = Some d1 /\
  (dayKey d1 = dayKey d2 -> d1 = d2) /\
  (forall suffix, key_of (dayKey d1) suffix = key_of (dayKey d2) suffix -> d1 = d2) /\
  (1000 <= getFullYear d1 <= 9999 -> String.length (dayKey d1) = 10%nat).
Proof.
  assert (forall d, calendar_date d = true -> parseDayKey (dayKey d) = Some d) as Hback.
  { intros [y m d] H. unfold calendar_date in H. cbn [getFullYear getMonth getDate] in H.
    repeat (apply andb_true_iff in H as [H ?]).
    repeat match goal with E : (_ <=? _) = true |- _ => apply Z.leb_le in E end.
    unfold parseDayKey, dayKey. cbn [getFullYear getMonth getDate].
    change (String_ y ++ "-" ++ pad2 (m + 1) ++ "-" ++ pad2 d)%string
      with (String_ y ++ String "-" (pad2 (m + 1) ++ String "-" (pad2 d)))%string.
    rewrite split_app by (apply digits_avoid; [reflexivity | apply String_digits; lia]).
    rewrite split_two by (try reflexivity; apply pad2_digits; lia).
    rewrite PageProps.Number_String_, !Number_pad2 by lia.
    do 2 f_equal. lia. }
  intros H1 H2.
  assert (dayKey d1 = dayKey d2 -> d1 = d2) as Hinj.
  { intros E. pose proof (Hback d1 H1) as A. rewrite E, (Hback d2 H2) in A. congruence. }
  split; [apply Hback, H1|]. split; [exact Hinj|]. split.
  - intros suffix E. apply Hinj. unfold key_of in E.
    apply (PageProps.append_inv_head "ytdoro:") in E.
    apply append_inv_tail in E. exact E.
  - intros Hy. destruct d1 as [y m d]. unfold calendar_date in H1.
    cbn [getFullYear getMonth getDate] in *.
    repeat (apply andb_true_iff in H1 as [H1 ?]).
    repeat match goal with E : (_ <=? _) = true |- _ => apply Z.leb_le in E end.
    unfold dayKey. cbn [getFullYear getMonth getDate].
    rewrite !length_app, !pad2_length by lia.
    assert (forallb (fun k => (String.length (String_ (1000 + Z.of_nat k)) =? 4)%nat)
              (seq 0 (Z.to_nat 9000)) = true) as Hall by (vm_compute; reflexivity).
    rewrite forallb_forall in Hall. specialize (Hall (Z.to_nat (y - 1000))).
    rewrite Z2Nat.id in Hall by lia. replace (1000 + (y - 1000)) with y in Hall by lia.
    apply Nat.eqb_eq in Hall; [|apply in_seq; lia]. rewrite Hall. reflexivity.
Qed.

Lemma dayKey_reads_back_sample :
  calendar_date sample_date = true /\
  calendar_date {| getFullYear := 2026; getMonth := 10; getDate := 3 |} = true /\
  parseDayKey (dayKey sample_date) = Some sample_date /\
  (dayKey sample_date = dayKey {| getFullYear := 2026; getMonth := 10; getDate := 3 |} ->
   sample_date = {| getFullYear := 2026; getMonth := 10; getDate := 3 |}).
Proof.
  split; [reflexivity|]. split; [reflexivity|].
  destruct (dayKey_reads_back sample_date
              {| getFullYear := 2026; getMonth := 10; getDate := 3 |} eq_refl eq_refl)
    as (A & B & _).
  split; [exact A | exact B].
Defined.

(** X5: a counter written with [writeNumber] reads back as the written
    value clamped at 0, never negative, and no other key is affected; a
    second write to the key replaces the first; with storage unavailable
    every read is 0 and a write changes nothing; a missing key reads 0. *)
Theorem written_counter_reads_back (ls : Storage) (k k' : string) (v w : Z) :
  readNumber (writeNumber ls k v) k' =
    match ls with
    | None => 0
    | Some _ => if String.eqb k k' then Z.max 0 v else readNumber ls k'
    end /\
  0 <= readNumber (writeNumber ls k v) k /\
  writeNumber (writeNumber ls k v) k w = writeNumber ls k w /\
  readNumber (Some ∅) k = 0 /\
  readNumber None k = 0 /\
  writeNumber None k v = None.
Proof.
  split; [|split; [|split; [|repeat split]]].
  - destruct ls as [items|]; [|reflexivity].
    destruct (String.eqb_spec k k') as [<-|Hne].
    + apply PageProps.readNumber_written.
    + apply PageProps.readNumber_other, Hne.
  - destruct ls as [items|]; [|simpl; lia].
    rewrite PageProps.readNumber_written. lia.
  - destruct ls as [items|]; [|reflexivity]. simpl. rewrite insert_insert_eq. reflexivity.
Qed.

Lemma step_coherent d e p :
  truthy d = true -> coherent d p -> coherent d (step (keys d) e p).
Proof.
  intros Hd (Hav & HL & HR & Hnn). destruct p as [s ls]. cbn [fst snd] in *.
  destruct ls as [items|]; [clear Hav | congruence].
  unfold counters_nonneg in Hnn.
  apply andb_true_iff in Hnn as [Hnn Hb]. apply andb_true_iff in Hnn as [Hl Hr].
  apply Z.leb_le in Hl, Hr, Hb.
  assert (key_of d "restSec" <> key_of d "learnSec") as N1
    by (intros E; apply PageProps.key_of_inj in E; discriminate).
  assert (key_of d "breakSec" <> key_of d "learnSec") as N2
    by (intros E; apply PageProps.key_of_inj in E; discriminate).
  assert (key_of d "breakSec" <> key_of d "restSec") as N3
    by (intros E; apply PageProps.key_of_inj in E; discriminate).
  unfold coherent, counters_nonneg.
  rewrite (PageProps.keys_resolved d Hd).
  destruct e as [x|x|]; unfold step, addLearn, addRest, resetToday;
    cbn [fst snd learn rest legacyBreak totalLearnSec totalRestSec];
    rewrite ?PageProps.truthy_key_of.
  - rewrite PageProps.readNumber_written.
    rewrite !(PageProps.readNumber_other (Some items) (key_of d "learnSec")) by congruence.
    repeat split; [discriminate | lia | exact HR |].
    apply andb_true_iff. split; [apply andb_true_iff; split|]; apply Z.leb_le; lia.
  - rewrite PageProps.readNumber_written.
    rewrite !(PageProps.readNumber_other (Some items) (key_of d "restSec")) by congruence.
    repeat split; [discriminate | exact HL | |].
    + rewrite HR. unfold js_or.
      destruct (readNumber (Some items) (key_of d "restSec") =? 0) eqn:E0;
        [apply Z.eqb_eq in E0 | apply Z.eqb_neq in E0].
      * destruct (Z.max 0 (readNumber (Some items) (key_of d "breakSec")
                            + Z.max 0 (Qfloor x)) =? 0) eqn:E1;
          [apply Z.eqb_eq in E1 | apply Z.eqb_neq in E1]; lia.
      * destruct (Z.max 0 (readNumber (Some items) (key_of d "restSec")
                            + Z.max 0 (Qfloor x)) =? 0) eqn:E1;
          [apply Z.eqb_eq in E1 | apply Z.eqb_neq in E1]; lia.
    + apply andb_true_iff. split; [apply andb_true_iff; split|]; apply Z.leb_le; lia.
  - destruct (PageProps.reset_zeroes_storage d s (Some items) Hd) as (R1 & R2 & R3).
    rewrite (PageProps.keys_resolved d Hd) in R1, R2, R3.
    unfold resetToday in R1, R2, R3.
    cbn [fst snd learn rest legacyBreak] in R1, R2, R3.
    rewrite ?PageProps.truthy_key_of in R1, R2, R3.
    rewrite R1, R2, R3. repeat split. discriminate.
Qed.

Lemma run_coherent d es p :
  truthy d = true -> coherent d p -> coherent d (run (keys d) es p).
Proof.
  intros Hd. revert p. unfold run. induction es as [|e es IH]; intros p Hp; [exact Hp|].
  simpl. apply IH, step_coherent; assumption.
Qed.

Lemma mount_coherent d s items :
  counters_nonneg d (Some items) = true -> coherent d (mount d s (Some items)).
Proof.
  intros Hnn. unfold coherent. rewrite PageProps.mount_writes_nothing.
  repeat split; [discriminate | exact Hnn].
Qed.

Lemma store_text_String_ n : 0 <= n -> store_text (String_ n) = true.
Proof.
  intros Hn. unfold store_text. rewrite PageProps.Number_String_.
  apply andb_true_iff. split; [apply Z.leb_le, Hn | apply String.eqb_refl].
Qed.

(** A fraction or a padded number is not a text the store writes. *)
Example store_text_samples :
  store_text "13" = true /\ store_text "0" = true /\
  store_text "12.5" = false /\ store_text "0120" = false /\
  store_text "-3" = false /\ store_text "" = false.
Proof. vm_compute. repeat split. Qed.

Lemma store_text_reads v :
  store_text v = true -> exists n, 0 <= n /\ Number_ v = Some n /\ v = String_ n.
Proof.
  unfold store_text. destruct (Number_ v) as [n|]; [|discriminate].
  intros H. apply andb_true_iff in H as [Hn Hv].
  apply Z.leb_le in Hn. apply String.eqb_eq in Hv. exists n. auto.
Qed.

Lemma counter_ok_nonneg d items suffix :
  counter_ok d items suffix = true -> 0 <= readNumber (Some items) (key_of d suffix).
Proof.
  unfold counter_ok, readNumber.
  destruct (items !! key_of d suffix) as [v|]; [|lia].
  intros H. destruct (store_text_reads v H) as (n & Hn & -> & _).
  destruct (JsString.truthy v); lia.
Qed.

Lemma store_written_nonneg d ls :
  store_written d ls = true -> ls <> None /\ counters_nonneg d ls = true.
Proof.
  destruct ls as [items|]; [|discriminate]. unfold store_written, counters_nonneg.
  intros H. apply andb_true_iff in H as [H Hb]. apply andb_true_iff in H as [Hl Hr].
  apply counter_ok_nonneg in Hl, Hr, Hb.
  split; [discriminate|].
  apply andb_true_iff. split; [apply andb_true_iff; split|]; apply Z.leb_le; assumption.
Qed.

Lemma counter_ok_written d items key value suffix :
  counter_ok d items suffix = true ->
  counter_ok d (<[key := String_ (Z.max 0 value)]> items) suffix = true.
Proof.
  unfold counter_ok. intros H.
  destruct (String.eqb_spec key (key_of d suffix)) as [->|Hne].
  - rewrite lookup_insert_eq. apply store_text_String_. lia.
  - rewrite lookup_insert_ne by exact Hne. exact H.
Qed.

Lemma writeNumber_written d ls key value :
  store_written d ls = true -> store_written d (writeNumber ls key value) = true.
Proof.
  destruct ls as [items|]; [|discriminate]. unfold store_written, writeNumber.
  intros H. apply andb_true_iff in H as [H Hb]. apply andb_true_iff in H as [Hl Hr].
  rewrite !counter_ok_written by assumption. reflexivity.
Qed.

Lemma step_written k d e p :
  store_written d (snd p) = true -> store_written d (snd (step k e p)) = true.
Proof.
  intros H. destruct p as [s ls]. cbn [snd] in H.
  destruct e as [x|x|]; unfold step, addLearn, addRest, resetToday; cbn [fst snd].
  - destruct (JsString.truthy (learn k)); [apply writeNumber_written|]; exact H.
  - destruct (JsString.truthy (rest k)); [apply writeNumber_written|]; exact H.
  - destruct (JsString.truthy (learn k)), (JsString.truthy (rest k)),
      (JsString.truthy (legacyBreak k));
      repeat apply writeNumber_written; exact H.
Qed.

Lemma run_written k d es p :
  store_written d (snd p) = true -> store_written d (snd (run k es p)) = true.
Proof.
  revert p. unfold run. induction es as [|e es IH]; intros p Hp; [exact Hp|].
  simpl. apply IH, step_written, Hp.
Qed.

(** X6: the totals survive a reload.  Take storage that is available
    and in which each of the day's three counters is absent or holds a
    text the store itself writes (the decimal digits of a non-negative
    integer).  After the first read of that day and any sequence of
    adds and resets made with that day's keys, a new first read of the
    resulting storage shows exactly the totals that were in memory, and
    the day's counters still hold texts the store wrote. *)
Theorem totals_survive_reload
    (date : Date) (ls : Storage) (s0 s1 : State) (es : list event) :
  store_written (dayKey date) ls = true ->
  totalLearnSec
    (fst (mount (dayKey date) s1
            (snd (run (keys (dayKey date)) es (mount (dayKey date) s0 ls)))))
  = totalLearnSec (fst (run (keys (dayKey date)) es (mount (dayKey date) s0 ls))) /\
  totalRestSec
    (fst (mount (dayKey date) s1
            (snd (run (keys (dayKey date)) es (mount (dayKey date) s0 ls)))))
  = totalRestSec (fst (run (keys (dayKey date)) es (mount (dayKey date) s0 ls))) /\
  store_written (dayKey date)
    (snd (run (keys (dayKey date)) es (mount (dayKey date) s0 ls))) = true.
Proof.
  intros Hw. destruct (store_written_nonneg _ _ Hw) as [Hav Hnn].
  destruct ls as [items|]; [clear Hav | congruence].
  destruct (run_coherent (dayKey date) es _ (PageProps.truthy_dayKey date)
              (mount_coherent (dayKey date) s0 items Hnn)) as (_ & HL & HR & _).
  destruct (PageProps.mount_totals (dayKey date) s1
              (snd (run (keys (dayKey date)) es (mount (dayKey date) s0 (Some items)))))
    as (_ & ML & MR).
  rewrite ML, MR, <- HL, <- HR. split; [reflexivity|]. split; [reflexivity|].
  apply run_written. rewrite PageProps.mount_writes_nothing. exact Hw.
Qed.

Lemma totals_survive_reload_sample :
  store_written (dayKey sample_date) (Some mixed_day) = true /\
  totalRestSec
    (fst (mount (dayKey sample_date) initial
            (snd (run (keys (dayKey sample_date))
                    [AddLearn (7 # 2); AddRest (inject_Z 30); AddLearn (inject_Z (-4))]
                    (mount (dayKey sample_date) initial (Some mixed_day))))))
  = totalRestSec
      (fst (run (keys (dayKey sample_date))
              [AddLearn (7 # 2); AddRest (inject_Z 30); AddLearn (inject_Z (-4))]
              (mount (dayKey sample_date) initial (Some mixed_day)))).
Proof.
  assert (store_written (dayKey sample_date) (Some mixed_day) = true) as H
    by (vm_compute; reflexivity).
  split; [exact H|].
  apply (totals_survive_reload sample_date (Some mixed_day) initial initial
           [AddLearn (7 # 2); AddRest (inject_Z 30); AddLearn (inject_Z (-4))] H).
Defined.

(** X7: the two categories do not interfere: an [addLearn] and an
    [addRest] made with the keys of a render give the same totals and
    the same storage in either order; and two adds of whole non-negative
    seconds to a category amount to one add of their sum. *)
Theorem adds_commute_and_merge (d : string) (s : State) (ls : Storage) :
  (forall a b : Q,
      addLearn (keys d) a (fst (addRest (keys d) b s ls)) (snd (addRest (keys d) b s ls))
      = addRest (keys d) b (fst (addLearn (keys d) a s ls)) (snd (addLearn (keys d) a s ls))) /\
  (forall m n : Z,
      0 <= m -> 0 <= n ->
      addLearn (keys d) (inject_Z n)
        (fst (addLearn (keys d) (inject_Z m) s ls)) (snd (addLearn (keys d) (inject_Z m) s ls))
      = addLearn (keys d) (inject_Z (m + n)) s ls /\
      addRest (keys d) (inject_Z n)
        (fst (addRest (keys d) (inject_Z m) s ls)) (snd (addRest (keys d) (inject_Z m) s ls))
      = addRest (keys d) (inject_Z (m + n)) s ls).
Proof.
  assert (key_of d "restSec" <> key_of d "learnSec") as N1
    by (intros E; apply PageProps.key_of_inj in E; discriminate).
  unfold keys. destruct (truthy d) eqn:Hd; unfold addLearn, addRest;
    cbn [fst snd learn rest totalLearnSec totalRestSec today];
    rewrite ?PageProps.truthy_key_of; cbn [truthy String.eqb negb].
  - split.
    + intros a b. destruct ls as [items|]; [|reflexivity]. cbn [writeNumber].
      rewrite insert_insert_ne by congruence. reflexivity.
    + intros m n Hm Hn. rewrite !Qfloor_Z.
      replace (Z.max 0 (m + n)) with (Z.max 0 m + Z.max 0 n) by lia.
      rewrite !Z.add_assoc.
      destruct ls as [items|]; [|split; reflexivity]. cbn [writeNumber].
      rewrite !insert_insert_eq. split; reflexivity.
  - split; [reflexivity|]. intros m n Hm Hn. rewrite !Qfloor_Z.
    replace (Z.max 0 (m + n)) with (Z.max 0 m + Z.max 0 n) by lia.
    rewrite !Z.add_assoc. split; reflexivity.
Qed.

End PageExtra.

(** ** The countdown cards *)

Module CountdownExtra.
Import Countdown CountdownSpec.

Lemma credit_calls_app cs1 cs2 :
  credit_calls (cs1 ++ cs2)%list = (credit_calls cs1 + credit_calls cs2)%nat.
Proof. induction cs1 as [|[] cs1 IH]; simpl; lia. Qed.

Lemma credit_calls_notify c granted : credit_calls (notify c granted) = O.
Proof. destruct c, granted; reflexivity. Qed.

Lemma credit_calls_onAdd c n cs : credit_calls (onAdd c n :: cs) = S (credit_calls cs).
Proof. destruct c; reflexivity. Qed.

Lemma step_budget c granted e s :
  (credit_calls (snd (step c granted e s)) + armed (fst (step c granted e s))
   <= armed s + starts [e])%nat.
Proof.
  destruct e as [m|now|now| |]; cbn [step starts].
  - unfold setMinutes, armed. cbn. lia.
  - unfold start, armed. cbn. lia.
  - unfold tick. destruct (timerRef s) as [iv|] eqn:Ht; [|cbn; lia].
    destruct (Z.max 0 (t iv - (now - startTs iv) / 1000) <=? 0); cbn [fst snd].
    + rewrite credit_calls_onAdd. cbn [credit_calls]. rewrite credit_calls_notify.
      unfold armed. cbn. rewrite Ht. lia.
    + unfold armed. cbn. rewrite Ht. lia.
  - unfold stop. destruct (status s) eqn:Es; cbn [fst snd]; try (cbn; lia).
    rewrite credit_calls_onAdd. unfold armed. cbn. rewrite Es.
    destruct (timerRef s); lia.
  - destruct c; cbn [fst snd]; [cbn; lia|]. unfold reset, armed. cbn. lia.
Qed.

Lemma run_budget c granted es s :
  (credit_calls (snd (run c granted es s)) + armed (fst (run c granted es s))
   <= armed s + starts es)%nat.
Proof.
  revert s. induction es as [|e es IH]; intros s; [simpl; lia|].
  rewrite CountdownProps.run_cons. cbn [fst snd]. rewrite credit_calls_app.
  pose proof (step_budget c granted e s) as H1.
  pose proof (IH (fst (step c granted e s))) as H2.
  assert (starts (e :: es) = starts [e] + starts es)%nat as -> by (destruct e; reflexivity).
  lia.
Qed.

Lemma step_category c granted e s :
  match c with
  | LearningCard => PageSpec.rest_credit (snd (step c granted e s)) = 0
  | PlainRestPanel => PageSpec.learn_credit (snd (step c granted e s)) = 0
  end.
Proof.
  destruct e as [m|now|now| |]; cbn [step].
  - destruct c; reflexivity.
  - destruct c; reflexivity.
  - unfold tick. destruct (timerRef s); [|destruct c; reflexivity].
    destruct (_ <=? 0); destruct c, granted; reflexivity.
  - unfold stop. destruct (status s); destruct c; reflexivity.
  - destruct c; reflexivity.
Qed.

Lemma rest_credit_app cs1 cs2 :
  PageSpec.rest_credit (cs1 ++ cs2)%list
  = PageSpec.rest_credit cs1 + PageSpec.rest_credit cs2.
Proof. induction cs1 as [|[] cs1 IH]; simpl; lia. Qed.

Lemma learn_credit_app cs1 cs2 :
  PageSpec.learn_credit (cs1 ++ cs2)%list
  = PageSpec.learn_credit cs1 + PageSpec.learn_credit cs2.
Proof. induction cs1 as [|[] cs1 IH]; simpl; lia. Qed.

Lemma run_category c granted es s :
  match c with
  | LearningCard => PageSpec.rest_credit (snd (run c granted es s)) = 0
  | PlainRestPanel => PageSpec.learn_credit (snd (run c granted es s)) = 0
  end.
Proof.
  revert s. induction es as [|e es IH]; intros s; [destruct c; reflexivity|].
  rewrite CountdownProps.run_cons. cbn [fst snd].
  pose proof (step_category c granted e s) as H1.
  pose proof (IH (fst (step c granted e s))) as H2.
  destruct c; [rewrite rest_credit_app | rewrite learn_credit_app]; lia.
Qed.

(** X8: a countdown card calls its add at most once per started session:
    over any events, from any state, the add calls made plus the credit
    still possible afterwards never exceed the credit possible before
    plus the number of starts; from the initial state the add calls are
    at most as many as the starts, and events without a start credit
    nothing once the card is paused, done or reset.  The learning card
    never credits Rest and the plain rest panel never credits Learning. *)
Theorem one_credit_per_start (c : card) (granted : bool) (es : list event) (s : State) :
  (credit_calls (snd (run c granted es s)) + armed (fst (run c granted es s))
   <= armed s + starts es)%nat /\
  (credit_calls (snd (run c granted es (initial c))) <= starts es)%nat /\
  (armed s = O -> starts es = O -> credit_calls (snd (run c granted es s)) = O) /\
  match c with
  | LearningCard => PageSpec.rest_credit (snd (run c granted es s)) = 0
  | PlainRestPanel => PageSpec.learn_credit (snd (run c granted es s)) = 0
  end.
Proof.
  split; [apply run_budget|]. split; [|split; [|apply run_category]].
  - pose proof (run_budget c granted es (initial c)) as H.
    assert (armed (initial c) = O) as E by (destruct c; reflexivity). lia.
  - intros Ha Hs. pose proof (run_budget c granted es s). lia.
Qed.

(** X9: a card never credits more than the target of the session: in
    every state a card reaches, whatever happens next, each add call
    carries at most the displayed target; a completing firing carries
    exactly the target and a stop carries strictly less. *)
Theorem credit_within_target (c : card) (granted : bool) (es : list event) (e : event) :
  Forall (credit_at_most (targetSec (fst (run c granted es (initial c)))))
    (snd (step c granted e (fst (run c granted es (initial c))))) /\
  Forall (credit_at_most (targetSec (fst (run c granted es (initial c))) - 1))
    (snd (stop c (fst (run c granted es (initial c))))) /\
  (forall now,
      snd (tick c granted now (fst (run c granted es (initial c)))) = [] \/
      snd (tick c granted now (fst (run c granted es (initial c))))
      = onAdd c (targetSec (fst (run c granted es (initial c))))
          :: beepTriple :: notify c granted).
Proof.
  pose proof (CountdownProps.run_consistent c granted es (initial c)
                (CountdownProps.initial_consistent c)) as H.
  set (s := fst (run c granted es (initial c))) in *.
  destruct H as (Hrem & Htar & Hst).
  assert (forall now,
             snd (tick c granted now s) = [] \/
             snd (tick c granted now s) = onAdd c (targetSec s) :: beepTriple :: notify c granted)
    as Htick.
  { intros now. unfold tick. destruct (timerRef s) as [iv|] eqn:Ht; [|left; reflexivity].
    destruct (status s) eqn:Es;
      try (exfalso; congruence);
      try (destruct Hst as (_ & _ & Hst); exfalso; congruence).
    destruct Hst as (_ & _ & ts & Hiv). rewrite ?Ht in Hiv. injection Hiv as ->.
    cbn [startTs t]. destruct (_ <=? 0); [right | left]; reflexivity. }
  assert (Forall (credit_at_most (targetSec s - 1)) (snd (stop c s))) as Hstop.
  { unfold stop. destruct (status s) eqn:Es; cbn [snd]; try constructor.
    - destruct Hst as (Hsum & Hpos & _). destruct c; cbn; lia.
    - constructor. }
  assert (forall cs, Forall (credit_at_most (targetSec s - 1)) cs ->
                     Forall (credit_at_most (targetSec s)) cs) as Hweak.
  { intros cs. apply List.Forall_impl. intros [] Hc; cbn in *; trivial; lia. }
  split; [|split; [exact Hstop | exact Htick]].
  destruct e as [m|now|now| |]; cbn [step snd].
  - constructor.
  - repeat constructor.
  - destruct (Htick now) as [-> | ->]; [constructor|].
    constructor; [destruct c; cbn; lia|]. constructor; [exact I|].
    destruct c, granted; repeat constructor.
  - apply Hweak, Hstop.
  - destruct c; constructor.
Qed.

(** X10: the display does not depend on the firings that were missed: a
    firing that did not complete the session leaves no trace once the
    next firing has run. *)
Theorem missed_firing_leaves_no_trace
    (c : card) (granted : bool) (now1 now2 : Z) (s : State) :
  snd (tick c granted now1 s) = [] ->
  tick c granted now2 (fst (tick c granted now1 s)) = tick c granted now2 s.
Proof.
  unfold tick at 1 3. destruct (timerRef s) as [iv|] eqn:Ht; [|reflexivity].
  destruct (Z.max 0 (t iv - (now1 - startTs iv) / 1000) <=? 0); cbn [fst snd].
  - destruct c; discriminate.
  - intros _. unfold tick. cbn [timerRef minutes status startedAt targetSec].
    rewrite Ht. destruct (_ <=? 0); reflexivity.
Qed.

Lemma missed_firing_leaves_no_trace_sample :
  snd (tick LearningCard true 7300 (fst (start LearningCard 0 (initial LearningCard)))) = [] /\
  tick LearningCard true 90250
    (fst (tick LearningCard true 7300 (fst (start LearningCard 0 (initial LearningCard)))))
  = tick LearningCard true 90250 (fst (start LearningCard 0 (initial LearningCard))).
Proof.
  split; [reflexivity|].
  apply (missed_firing_leaves_no_trace LearningCard true 7300 90250
           (fst (start LearningCard 0 (initial LearningCard))) eq_refl).
Defined.

End CountdownExtra.

(** ** The player-driven panel *)

Module YouTubeExtra.
Import YouTubeRestPanel YouTubeSpec.

Lemma tickOnce_videoId r s : videoId (tickOnce r s) = videoId s.
Proof. unfold tickOnce. destruct (playerRef s), (positive (getDuration r)); reflexivity. Qed.

Lemma handleEndedCount_videoId r s : videoId (fst (handleEndedCount r s)) = videoId s.
Proof. unfold handleEndedCount. destruct (countedRef s); reflexivity. Qed.

Lemma step_mounted_ok new_URL e s :
  mounted_ok s -> mounted_ok (fst (step new_URL e s)).
Proof.
  unfold mounted_ok. intros H. destruct e; cbn [step fst].
  - exact H.
  - unfold startRestYoutube.
    destruct (Resolver.extractYouTubeVideoId new_URL (input s)) as [id|] eqn:E.
    + cbn [videoId]. apply ResolverProps.extract_resolves in E.
      apply ResolverProps.resolves_recognized in E as [E _]. exact E.
    + exact H.
  - unfold stopRestYoutube. destruct (playerRef s); cbn [fst videoId]; [exact I | exact H].
  - destruct (tickRef s); [rewrite tickOnce_videoId|]; exact H.
  - unfold onReady. rewrite tickOnce_videoId. exact H.
  - unfold onPlay. cbn [startTick videoId]. rewrite tickOnce_videoId. exact H.
  - unfold onPause. rewrite tickOnce_videoId. exact H.
  - unfold onEnd. rewrite handleEndedCount_videoId. exact H.
  - exact H.
  - unfold onStateChange. destruct (data =? 1); [exact H|].
    destruct (data =? 2); [exact H|]. destruct (data =? 0); [|exact H].
    rewrite handleEndedCount_videoId. exact H.
Qed.

Lemma run_mounted_ok new_URL es s :
  mounted_ok s -> mounted_ok (fst (run new_URL es s)).
Proof.
  revert s. induction es as [|e es IH]; intros s H; [exact H|].
  rewrite YouTubeProps.panel_run_cons. cbn [fst]. apply IH, step_mounted_ok, H.
Qed.

(** X11: the panel never mounts a player on a malformed id: whatever the
    URL constructor does and whatever happens to the panel, the mounted
    video id, when there is one, is an 11-character id over
    [[A-Za-z0-9_-]]. *)
Theorem mounted_id_is_well_formed
    (new_URL : string -> option Resolver.URL) (es : list event) :
  match videoId (fst (run new_URL es initial)) with
  | Some id =>
      String.length id = 11%nat /\
      Forall (fun c => Resolver.id_char c = true) (list_ascii_of_string id)
  | None => True
  end.
Proof.
  pose proof (run_mounted_ok new_URL es initial I) as H. unfold mounted_ok in H.
  destruct (videoId (fst (run new_URL es initial))) as [id|]; [|exact I].
  apply ResolverProps.is_video_id_shape, H.
Qed.

(** X12: [Open in YouTube] opens the watch address of a well-formed id,
    taken from the input when it resolves and from the mounted video
    otherwise, and that address resolves back to the same id; it opens
    nothing exactly when the input does not resolve and no video is
    mounted. *)
Theorem opened_address_resolves_back
    (new_URL : string -> option Resolver.URL) (es : list event) :
  match openInYouTube new_URL (fst (run new_URL es initial)) with
  | Some url =>
      exists id,
        url = ("https://www.youtube.com/watch?v=" ++ id)%string /\
        Resolver.is_video_id id = true /\
        Resolver.resolve url = Some id /\
        (Resolver.extractYouTubeVideoId new_URL (input (fst (run new_URL es initial)))
           = Some id \/
         Resolver.extractYouTubeVideoId new_URL (input (fst (run new_URL es initial)))
           = None /\ videoId (fst (run new_URL es initial)) = Some id)
  | None =>
      Resolver.extractYouTubeVideoId new_URL (input (fst (run new_URL es initial))) = None /\
      videoId (fst (run new_URL es initial)) = None
  end.
Proof.
  pose proof (run_mounted_ok new_URL es initial I) as H. unfold mounted_ok in H.
  set (s := fst (run new_URL es initial)) in *.
  unfold openInYouTube.
  destruct (Resolver.extractYouTubeVideoId new_URL (input s)) as [id|] eqn:E.
  - assert (Resolver.is_video_id id = true) as Hid.
    { apply ResolverProps.extract_resolves in E.
      apply ResolverProps.resolves_recognized in E as [E _]. exact E. }
    rewrite (ResolverProps.is_video_id_truthy id Hid). cbv beta iota zeta.
    rewrite (ResolverProps.is_video_id_truthy id Hid).
    exists id. repeat split; auto. apply ResolverExtra.watch_form, Hid.
  - destruct (videoId s) as [id|]; [|auto].
    cbv beta iota zeta. rewrite (ResolverProps.is_video_id_truthy id H).
    exists id. repeat split; auto. apply ResolverExtra.watch_form, H.
Qed.

Lemma tickOnce_bounds r s :
  sane r = true ->
  0 <= remainingSec s <= durationSec s ->
  0 <= remainingSec (tickOnce r s) <= durationSec (tickOnce r s).
Proof.
  intros Hr Hs. unfold tickOnce. destruct (playerRef s); [|exact Hs].
  destruct (positive (getDuration r)) eqn:Hd; [|exact Hs].
  cbn [remainingSec durationSec].
  unfold sane in Hr. apply Qle_bool_iff in Hr.
  unfold positive in Hd. apply negb_true_iff in Hd.
  assert (~ (getDuration r <= 0)%Q) as Hpos.
  { intros Hle. apply Qle_bool_iff in Hle. congruence. }
  assert (Qfloor (getDuration r - getCurrentTime r) <= Qfloor (getDuration r))
    by (apply Qfloor_resp_le; lra).
  assert (0 <= Qfloor (getDuration r))
    by (change 0 with (Qfloor 0); apply Qfloor_resp_le; lra).
  lia.
Qed.

Lemma handleEndedCount_bounds r s :
  remainingSec (fst (handleEndedCount r s)) = remainingSec s /\
  durationSec (fst (handleEndedCount r s)) = durationSec s.
Proof. unfold handleEndedCount. destruct (countedRef s); split; reflexivity. Qed.

Lemma step_bounds new_URL e s :
  sane_event e = true ->
  0 <= remainingSec s <= durationSec s ->
  0 <= remainingSec (fst (step new_URL e s)) <= durationSec (fst (step new_URL e s)).
Proof.
  intros He Hs. destruct e; cbn [step fst sane_event] in *.
  - exact Hs.
  - unfold startRestYoutube.
    destruct (Resolver.extractYouTubeVideoId new_URL (input s)); cbn; lia.
  - unfold stopRestYoutube. destruct (playerRef s); cbn; lia.
  - destruct (tickRef s); [apply tickOnce_bounds|]; assumption.
  - unfold onReady. apply tickOnce_bounds; assumption.
  - unfold onPlay. cbn [startTick remainingSec durationSec].
    apply tickOnce_bounds; assumption.
  - unfold onPause. apply tickOnce_bounds; assumption.
  - unfold onEnd.
    destruct (handleEndedCount_bounds r (setRemainingSec 0 (clearTick (setStatus Ended s))))
      as [-> ->]. cbn. lia.
  - exact Hs.
  - unfold onStateChange. destruct (data =? 1); [exact Hs|].
    destruct (data =? 2); [exact Hs|]. destruct (data =? 0); [|exact Hs].
    destruct (handleEndedCount_bounds r (setRemainingSec 0 (clearTick (setStatus Ended s))))
      as [-> ->]. cbn. lia.
Qed.

Lemma run_bounds new_URL es s :
  forallb sane_event es = true ->
  0 <= remainingSec s <= durationSec s ->
  0 <= remainingSec (fst (run new_URL es s)) <= durationSec (fst (run new_URL es s)).
Proof.
  revert s. induction es as [|e es IH]; intros s Hes Hs; [exact Hs|].
  cbn [forallb] in Hes. apply andb_true_iff in Hes as [He Hes].
  rewrite YouTubeProps.panel_run_cons. cbn [fst].
  apply IH; [exact Hes|]. apply step_bounds; assumption.
Qed.

Lemma stop_credit s :
  PageSpec.rest_credit (snd (stopRestYoutube s))
  = if playerRef s && negb (countedRef s)
    then Z.max 0 (durationSec s - remainingSec s) else 0.
Proof.
  unfold stopRestYoutube. destruct (playerRef s), (countedRef s); cbn [snd andb negb];
    try reflexivity.
  destruct (0 <? Z.max 0 (durationSec s - remainingSec s)) eqn:E;
    [apply Z.ltb_lt in E | apply Z.ltb_ge in E]; cbn; lia.
Qed.

(** X13: as long as the player reports positions that are not negative,
    the remaining time shown stays between 0 and the duration shown;
    hence a stop that credits does so with duration minus remaining,
    between 0 and the duration, while a natural end of a polled video
    credits the whole duration whatever the position was. *)
Theorem remaining_within_duration
    (new_URL : string -> option Resolver.URL) (es : list event) :
  forallb sane_event es = true ->
  0 <= remainingSec (fst (run new_URL es initial))
    <= durationSec (fst (run new_URL es initial)) /\
  (playerRef (fst (run new_URL es initial)) = true ->
   countedRef (fst (run new_URL es initial)) = false ->
   PageSpec.rest_credit (snd (stopRestYoutube (fst (run new_URL es initial))))
   = durationSec (fst (run new_URL es initial))
     - remainingSec (fst (run new_URL es initial))) /\
  0 <= PageSpec.rest_credit (snd (stopRestYoutube (fst (run new_URL es initial))))
    <= durationSec (fst (run new_URL es initial)) /\
  (forall r,
      countedRef (fst (run new_URL es initial)) = false ->
      0 < durationSec (fst (run new_URL es initial)) ->
      snd (onEnd r (fst (run new_URL es initial)))
      = [onAddRest (durationSec (fst (run new_URL es initial)))]).
Proof.
  intros Hes.
  assert (0 <= remainingSec initial <= durationSec initial) as H0 by (cbn; lia).
  pose proof (run_bounds new_URL es initial Hes H0) as H.
  set (s := fst (run new_URL es initial)) in *.
  split; [exact H|]. split; [|split].
  - intros Hp Hc. rewrite stop_credit, Hp, Hc. cbn [andb negb]. lia.
  - rewrite stop_credit. destruct (playerRef s && negb (countedRef s)); lia.
  - intros r Hc Hd.
    unfold onEnd, handleEndedCount, ended_duration, Page.js_or,
      setRemainingSec, clearTick, setStatus.
    cbn [countedRef durationSec playerRef]. rewrite Hc. cbn [snd].
    destruct (durationSec s =? 0) eqn:E; [apply Z.eqb_eq in E; lia|].
    destruct (0 <? durationSec s) eqn:E'; [reflexivity | apply Z.ltb_ge in E'; lia].
Qed.

Lemma remaining_within_duration_sample :
  forallb sane_event
    [SetInput watch_url; StartRest; Ready (reading 212 0); Play (reading 212 0);
     Poll (reading 212 50)] = true /\
  PageSpec.rest_credit
    (snd (stopRestYoutube
            (fst (run Resolver.plain_URL
                    [SetInput watch_url; StartRest; Ready (reading 212 0);
                     Play (reading 212 0); Poll (reading 212 50)] initial))))
  <= durationSec
       (fst (run Resolver.plain_URL
               [SetInput watch_url; StartRest; Ready (reading 212 0);
                Play (reading 212 0); Poll (reading 212 50)] initial)).
Proof.
  split; [reflexivity|].
  apply (remaining_within_duration Resolver.plain_URL
           [SetInput watch_url; StartRest; Ready (reading 212 0);
            Play (reading 212 0); Poll (reading 212 50)] eq_refl).
Defined.

Lemma handleEndedCount_fields r s :
  status (fst (handleEndedCount r s)) = status s /\
  tickRef (fst (handleEndedCount r s)) = tickRef s /\
  remainingSec (fst (handleEndedCount r s)) = remainingSec s /\
  countedRef (fst (handleEndedCount r s)) = true.
Proof.
  unfold handleEndedCount. destruct (countedRef s) eqn:E; cbn [fst]; auto.
Qed.

(** An end signal finds nothing to do on a panel that already ended. *)
Lemma ended_again r x :
  status x = Ended -> tickRef x = false -> remainingSec x = 0 -> countedRef x = true ->
  onEnd r x = (x, []).
Proof.
  destruct x as [i st v d rem msg p tk cnt]. cbn. intros -> -> -> ->. reflexivity.
Qed.

Lemma onEnd_ended r s :
  status (fst (onEnd r s)) = Ended /\
  tickRef (fst (onEnd r s)) = false /\
  remainingSec (fst (onEnd r s)) = 0 /\
  countedRef (fst (onEnd r s)) = true.
Proof.
  unfold onEnd.
  destruct (handleEndedCount_fields r (setRemainingSec 0 (clearTick (setStatus Ended s))))
    as (A & B & C & D).
  rewrite A, B, C, D. repeat split.
Qed.

(** X14: the two channels of the player are aliases.  A state-change code
    delivered after the matching callback (1 after play, 2 after pause,
    0 after end) changes nothing and calls nothing, and a callback
    delivered after its code gives the state of the callback alone; an
    end delivered on both channels credits once. *)
Theorem duplicate_delivery_is_harmless (r r' : Reading) (s : State) :
  onStateChange 1 r' (onPlay r s) = (onPlay r s, []) /\
  onPlay r (fst (onStateChange 1 r' s)) = onPlay r s /\
  onStateChange 2 r' (onPause r s) = (onPause r s, []) /\
  onPause r (fst (onStateChange 2 r' s)) = onPause r s /\
  onStateChange 0 r' (fst (onEnd r s)) = (fst (onEnd r s), []) /\
  onEnd r' (fst (onStateChange 0 r s)) = (fst (onStateChange 0 r s), []) /\
  rest_adds
    (snd (onEnd r s) ++ snd (onStateChange 0 r' (fst (onEnd r s))))%list
  = rest_adds (snd (onEnd r s)).
Proof.
  assert (forall q x, onStateChange 0 q x = onEnd q x) as Halias by reflexivity.
  assert (onEnd r' (fst (onEnd r s)) = (fst (onEnd r s), [])) as Hend.
  { destruct (onEnd_ended r s) as (A & B & C & D). apply ended_again; assumption. }
  assert (onStateChange 0 r' (fst (onEnd r s)) = (fst (onEnd r s), [])) as Htwice
    by (rewrite Halias; exact Hend).
  assert (forall x, onStateChange 1 r' x = (startTick (setStatus Playing x), [])) as Hone
    by reflexivity.
  assert (forall x, onStateChange 2 r' x = (clearTick (setStatus Paused x), [])) as Htwo
    by reflexivity.
  split; [|split; [|split; [|split; [|split; [|split]]]]].
  - rewrite Hone. f_equal. destruct s as [i st v d rem msg p tk cnt].
    unfold onPlay, tickOnce, startTick, setStatus. cbn [playerRef].
    destruct p, (positive (getDuration r)); reflexivity.
  - rewrite Hone. cbn [fst]. destruct s as [i st v d rem msg p tk cnt].
    unfold onPlay, tickOnce, startTick, setStatus. cbn [playerRef].
    destruct p, (positive (getDuration r)); reflexivity.
  - rewrite Htwo. f_equal. destruct s as [i st v d rem msg p tk cnt].
    unfold onPause, tickOnce, clearTick, setStatus. cbn [playerRef].
    destruct p, (positive (getDuration r)); reflexivity.
  - rewrite Htwo. cbn [fst]. destruct s as [i st v d rem msg p tk cnt].
    unfold onPause, tickOnce, clearTick, setStatus. cbn [playerRef].
    destruct p, (positive (getDuration r)); reflexivity.
  - exact Htwice.
  - rewrite (Halias r s). exact Hend.
  - rewrite Htwice. cbn [snd]. rewrite app_nil_r. reflexivity.
Qed.

End YouTubeExtra.
